(** * barplas-bizflow: order workflow, report aggregates and UI state

    A shallow embedding of the parts of the portal that carry logic:
    the SQL trigger that recomputes an order's status from its items,
    the status display table, the in-memory aggregates of the report
    generator and of the business dashboard, the order-operations hook,
    the quote calculator and the status badge.

    Conventions.
    - SQL [TEXT]/[UUID] columns and TypeScript strings are [string];
      a nullable column is an [option], [None] being SQL [NULL].
    - Row counts and array lengths are [nat]; integer columns are [Z].
    - Monetary JavaScript numbers ([total], [precio_unitario], discounts)
      are exact rationals [Q]: rounding of IEEE doubles is outside the
      model, and a value that does not parse ([NaN]) is an explicit
      [None] at the one place where the code guards against it.
    - A JavaScript [Map] or plain object used as a map is an association
      list in insertion order, which is the order [entries()] yields. *)

From Stdlib Require Import List String Ascii Bool Arith ZArith QArith Qminmax Lia Lqa.
From Stdlib Require Import Permutation Sorted.
Import ListNotations.

Local Open Scope string_scope.
Local Open Scope list_scope.

(** ** supabase/migrations: the operational workflow schema and trigger *)

Module Migration.

Definition uuid := string.
Definition timestamptz := Z.

(** [CHECK (estado IN (...))] on [public.pedidos]. *)
Definition pedidos_estado_workflow_check_values : list string :=
  ["recibido"; "revision"; "confirmado_parcial"; "preparacion";
   "enviado"; "entregado"; "cancelado"].

(** [CHECK (estado IN (...))] on [public.pedido_items]. *)
Definition pedido_items_estado_check_values : list string :=
  ["pendiente"; "confirmado"; "no_confirmado"; "sin_stock";
   "preparando"; "enviado"].

(** [a = b] in a [WHERE] or [CASE WHEN] position: the row qualifies only
    when the comparison is true, and a comparison with [NULL] is not. *)
Definition sql_eq (a b : option string) : bool :=
  match a, b with
  | Some x, Some y => String.eqb x y
  | _, _ => false
  end.

(** [a IN (v1, ..., vn)] in the same positions. *)
Definition sql_in (a : option string) (vals : list string) : bool :=
  match a with
  | Some x => existsb (String.eqb x) vals
  | None => false
  end.

(** [a IS DISTINCT FROM b]: a null-safe inequality. *)
Definition is_distinct_from (a b : option string) : bool :=
  match a, b with
  | Some x, Some y => negb (String.eqb x y)
  | None, None => false
  | _, _ => true
  end.

(** A check constraint accepts a row when the condition is true or null. *)
Definition check_in (a : option string) (vals : list string) : bool :=
  match a with
  | Some x => existsb (String.eqb x) vals
  | None => true
  end.

Module Pedidos.
Record row := mk {
  id : uuid;
  estado : option string;
  updated_at : timestamptz
}.
End Pedidos.

Module PedidoItems.
Record row := mk {
  id : uuid;
  pedido_id : option uuid;
  estado : option string
}.
End PedidoItems.

Record database := mkdb {
  pedidos : list Pedidos.row;
  pedido_items : list PedidoItems.row
}.

Definition pedidos_estado_workflow_check (o : Pedidos.row) : bool :=
  check_in (Pedidos.estado o) pedidos_estado_workflow_check_values.

Definition pedido_items_estado_check (i : PedidoItems.row) : bool :=
  check_in (PedidoItems.estado i) pedido_items_estado_check_values.

(** [SELECT COUNT( * ) FROM public.pedido_items WHERE cond]. *)
Definition select_count (cond : PedidoItems.row -> bool) (db : database) : nat :=
  List.length (filter cond (pedido_items db)).

(** The [CASE] expression of the trigger's [UPDATE], evaluated for one
    order row whose current status is [estado]. *)
Definition case_estado (NEW : PedidoItems.row) (db : database)
    (estado : option string) : option string :=
  if Nat.eqb
       (select_count (fun i =>
          sql_eq (PedidoItems.pedido_id i) (PedidoItems.pedido_id NEW)
          && sql_eq (PedidoItems.estado i) (Some "confirmado")) db)
       (select_count (fun i =>
          sql_eq (PedidoItems.pedido_id i) (PedidoItems.pedido_id NEW)) db)
  then Some "preparacion"
  else if Nat.ltb 0
       (select_count (fun i =>
          sql_eq (PedidoItems.pedido_id i) (PedidoItems.pedido_id NEW)
          && sql_in (PedidoItems.estado i) ["confirmado"; "no_confirmado"]) db)
  then Some "confirmado_parcial"
  else estado.

(** [public.update_order_status_from_items()], run for the row [NEW] at
    time [now]: one [UPDATE public.pedidos ... WHERE id = NEW.pedido_id]. *)
Definition update_order_status_from_items (now : timestamptz)
    (NEW : PedidoItems.row) (db : database) : database :=
  mkdb
    (map (fun o =>
            if sql_eq (Some (Pedidos.id o)) (PedidoItems.pedido_id NEW)
            then Pedidos.mk (Pedidos.id o)
                            (case_estado NEW db (Pedidos.estado o))
                            now
            else o)
         (pedidos db))
    (pedido_items db).

(** [update_order_status_trigger]: [AFTER UPDATE ... FOR EACH ROW WHEN
    (OLD.estado IS DISTINCT FROM NEW.estado)]. *)
Definition update_order_status_trigger (now : timestamptz)
    (OLD NEW : PedidoItems.row) (db : database) : database :=
  if is_distinct_from (PedidoItems.estado OLD) (PedidoItems.estado NEW)
  then update_order_status_from_items now NEW db
  else db.

(** [UPDATE public.pedido_items SET ... WHERE cond]: every qualifying row
    is rewritten by [set]; the row-level AFTER triggers run once the
    statement has rewritten all its rows, one call per rewritten row, in
    row order, each on the database the previous call left. *)
Definition updated_rows (cond : PedidoItems.row -> bool)
    (set : PedidoItems.row -> PedidoItems.row) (db : database)
    : list (PedidoItems.row * PedidoItems.row) :=
  map (fun r => (r, set r)) (filter cond (pedido_items db)).

Definition update_pedido_items (now : timestamptz)
    (cond : PedidoItems.row -> bool)
    (set : PedidoItems.row -> PedidoItems.row) (db : database) : database :=
  fold_left
    (fun d on => update_order_status_trigger now (fst on) (snd on) d)
    (updated_rows cond set db)
    (mkdb (pedidos db)
          (map (fun r => if cond r then set r else r) (pedido_items db))).

(** The statement the order-operations hook issues for one item:
    [.update({ estado, ... }).eq('id', itemId)]. *)
Definition set_estado (e : option string) (r : PedidoItems.row) : PedidoItems.row :=
  PedidoItems.mk (PedidoItems.id r) (PedidoItems.pedido_id r) e.

Definition update_item_estado (now : timestamptz) (itemId : uuid)
    (e : option string) (db : database) : database :=
  update_pedido_items now
    (fun r => String.eqb (PedidoItems.id r) itemId) (set_estado e) db.

(** The claim's wording, as a second definition: the items of one order,
    and the status the order gets from them. *)
Definition items_of (pid : option uuid) (items : list PedidoItems.row)
    : list PedidoItems.row :=
  filter (fun i => sql_eq (PedidoItems.pedido_id i) pid) items.

Definition every_item_confirmado (items : list PedidoItems.row) : bool :=
  forallb (fun i => sql_eq (PedidoItems.estado i) (Some "confirmado")) items.

Definition some_item_decided (items : list PedidoItems.row) : bool :=
  existsb (fun i => sql_eq (PedidoItems.estado i) (Some "confirmado")
                    || sql_eq (PedidoItems.estado i) (Some "no_confirmado"))
          items.

Definition recomputed_estado (items : list PedidoItems.row)
    (current : option string) : option string :=
  if every_item_confirmado items then Some "preparacion"
  else if some_item_decided items then Some "confirmado_parcial"
  else current.

(** A rewritten row whose status changed and whose parent is [o]. *)
Definition fires_for (o : Pedidos.row)
    (on : PedidoItems.row * PedidoItems.row) : bool :=
  is_distinct_from (PedidoItems.estado (fst on)) (PedidoItems.estado (snd on))
  && sql_eq (Some (Pedidos.id o)) (PedidoItems.pedido_id (snd on)).

Definition recompute_order (now : timestamptz) (items : list PedidoItems.row)
    (o : Pedidos.row) : Pedidos.row :=
  Pedidos.mk (Pedidos.id o)
    (recomputed_estado (items_of (Some (Pedidos.id o)) items) (Pedidos.estado o))
    now.

Definition run_triggers (now : timestamptz)
    (rows : list (PedidoItems.row * PedidoItems.row)) (d : database) : database :=
  fold_left (fun d on => update_order_status_trigger now (fst on) (snd on) d)
            rows d.

(** Two orders and their items, to run the statement on. *)
Definition sample_db : database :=
  mkdb [Pedidos.mk "p1" (Some "entregado") 0%Z;
        Pedidos.mk "p2" (Some "recibido") 0%Z]
       [PedidoItems.mk "a" (Some "p1") (Some "pendiente");
        PedidoItems.mk "b" (Some "p1") (Some "confirmado");
        PedidoItems.mk "c" (Some "p2") (Some "pendiente")].

#[local] Arguments sql_eq : simpl never.
#[local] Arguments sql_in : simpl never.
#[local] Arguments is_distinct_from : simpl never.

(** *** Counting lemmas behind the [CASE] expression *)

Section Counting.
Context {A : Type}.
Variables p q : A -> bool.

Lemma filter_and_length_le (l : list A) :
  (List.length (filter (fun x => p x && q x) l) <= List.length (filter p l))%nat.
Proof.
  induction l as [|a l IH]; simpl; [lia|].
  destruct (p a), (q a); simpl; lia.
Qed.

Lemma count_all_iff_forallb (l : list A) :
  Nat.eqb (List.length (filter (fun x => p x && q x) l))
          (List.length (filter p l))
  = forallb q (filter p l).
Proof.
  induction l as [|a l IH]; simpl; [reflexivity|].
  pose proof (filter_and_length_le l) as Hle.
  destruct (p a) eqn:Hp; simpl; [|exact IH].
  destruct (q a) eqn:Hq; simpl; [exact IH|].
  apply Nat.eqb_neq. lia.
Qed.

Lemma count_pos_iff_existsb (l : list A) :
  Nat.ltb 0 (List.length (filter (fun x => p x && q x) l))
  = existsb q (filter p l).
Proof.
  induction l as [|a l IH]; simpl; [reflexivity|].
  destruct (p a) eqn:Hp; simpl; [|exact IH].
  destruct (q a) eqn:Hq; simpl; [reflexivity|exact IH].
Qed.

Lemma existsb_pointwise (f g : A -> bool) (l : list A) :
  (forall x, f x = g x) -> existsb f l = existsb g l.
Proof.
  intros H. induction l as [|a l IH]; simpl; [reflexivity|].
  now rewrite H, IH.
Qed.

End Counting.

Lemma sql_in_decided (e : option string) :
  sql_in e ["confirmado"; "no_confirmado"]
  = sql_eq e (Some "confirmado") || sql_eq e (Some "no_confirmado").
Proof.
  destruct e as [x|]; unfold sql_in, sql_eq; simpl; [|reflexivity].
  now rewrite orb_false_r.
Qed.

Lemma sql_eq_Some (x : string) (b : option string) :
  sql_eq (Some x) b = true -> b = Some x.
Proof.
  destruct b as [y|]; unfold sql_eq; [|discriminate].
  intros H. apply String.eqb_eq in H. now subst.
Qed.

(** The counts of the trigger decide exactly what the wording says. *)
Lemma case_estado_recomputed (NEW : PedidoItems.row) (db : database)
    (current : option string) :
  case_estado NEW db current
  = recomputed_estado
      (items_of (PedidoItems.pedido_id NEW) (pedido_items db)) current.
Proof.
  unfold case_estado, recomputed_estado, select_count, items_of,
    every_item_confirmado, some_item_decided.
  rewrite (count_all_iff_forallb
             (fun i => sql_eq (PedidoItems.pedido_id i) (PedidoItems.pedido_id NEW))
             (fun i => sql_eq (PedidoItems.estado i) (Some "confirmado"))).
  rewrite (count_pos_iff_existsb
             (fun i => sql_eq (PedidoItems.pedido_id i) (PedidoItems.pedido_id NEW))
             (fun i => sql_in (PedidoItems.estado i) ["confirmado"; "no_confirmado"])).
  rewrite (existsb_pointwise _
             (fun i => sql_eq (PedidoItems.estado i) (Some "confirmado")
                       || sql_eq (PedidoItems.estado i) (Some "no_confirmado")));
    [reflexivity|].
  intros i. apply sql_in_decided.
Qed.

Lemma recomputed_estado_idem (items : list PedidoItems.row) (c : option string) :
  recomputed_estado items (recomputed_estado items c) = recomputed_estado items c.
Proof.
  unfold recomputed_estado.
  destruct (every_item_confirmado items); [reflexivity|].
  destruct (some_item_decided items); reflexivity.
Qed.

Lemma recomputed_estado_cases (items : list PedidoItems.row) (c : option string) :
  recomputed_estado items c = Some "preparacion"
  \/ recomputed_estado items c = Some "confirmado_parcial"
  \/ recomputed_estado items c = c.
Proof.
  unfold recomputed_estado.
  destruct (every_item_confirmado items); [now left|].
  destruct (some_item_decided items); [right; now left|right; now right].
Qed.

(** *** The statement as a whole *)

Lemma trigger_items (now : timestamptz) (OLD NEW : PedidoItems.row) (d : database) :
  pedido_items (update_order_status_trigger now OLD NEW d) = pedido_items d.
Proof.
  unfold update_order_status_trigger.
  destruct (is_distinct_from _ _); reflexivity.
Qed.

Lemma trigger_pedidos (now : timestamptz) (OLD NEW : PedidoItems.row) (d : database) :
  pedidos (update_order_status_trigger now OLD NEW d)
  = map (fun o => if fires_for o (OLD, NEW)
                  then recompute_order now (pedido_items d) o else o)
        (pedidos d).
Proof.
  unfold update_order_status_trigger, fires_for; simpl.
  destruct (is_distinct_from _ _); simpl.
  - apply map_ext. intros o.
    destruct (sql_eq (Some (Pedidos.id o)) (PedidoItems.pedido_id NEW)) eqn:E;
      [|reflexivity].
    unfold recompute_order. rewrite case_estado_recomputed.
    now rewrite (sql_eq_Some _ _ E).
  - symmetry. rewrite <- (map_id (pedidos d)) at 2. reflexivity.
Qed.

Lemma run_triggers_spec (now : timestamptz)
    (rows : list (PedidoItems.row * PedidoItems.row)) :
  forall d,
    pedido_items (run_triggers now rows d) = pedido_items d
    /\ pedidos (run_triggers now rows d)
       = map (fun o => if existsb (fires_for o) rows
                       then recompute_order now (pedido_items d) o else o)
             (pedidos d).
Proof.
  induction rows as [|[OLD NEW] rows IH]; intros d; simpl.
  - split; [reflexivity|]. symmetry. apply map_id.
  - destruct (IH (update_order_status_trigger now OLD NEW d)) as [Hi Hp].
    unfold run_triggers in *. simpl.
    rewrite Hi, Hp, trigger_items, trigger_pedidos, map_map.
    split; [reflexivity|].
    apply map_ext. intros o.
    destruct (fires_for o (OLD, NEW)) eqn:E; simpl; [|reflexivity].
    assert (Hsame : forall rs,
               existsb (fires_for (recompute_order now (pedido_items d) o)) rs
               = existsb (fires_for o) rs)
      by (intros rs; apply existsb_pointwise; intros; reflexivity).
    rewrite Hsame.
    destruct (existsb (fires_for o) rows); [|reflexivity].
    unfold recompute_order; simpl.
    now rewrite recomputed_estado_idem.
Qed.

Lemma update_pedido_items_spec (now : timestamptz)
    (cond : PedidoItems.row -> bool) (set : PedidoItems.row -> PedidoItems.row)
    (db : database) :
  let items' := map (fun r => if cond r then set r else r) (pedido_items db) in
  pedido_items (update_pedido_items now cond set db) = items'
  /\ pedidos (update_pedido_items now cond set db)
     = map (fun o => if existsb (fires_for o) (updated_rows cond set db)
                     then recompute_order now items' o else o)
           (pedidos db).
Proof.
  intros items'.
  exact (run_triggers_spec now (updated_rows cond set db)
           (mkdb (pedidos db) items')).
Qed.

Lemma filter_primary_key (l : list PedidoItems.row) (OLD : PedidoItems.row) :
  NoDup (map PedidoItems.id l) -> In OLD l ->
  filter (fun r => String.eqb (PedidoItems.id r) (PedidoItems.id OLD)) l = [OLD].
Proof.
  induction l as [|a l IH]; intros Hnd Hin; [destruct Hin|].
  simpl in Hnd. inversion Hnd as [|x xs Hnotin Hnd']; subst.
  assert (Hrest : forall r, In r l -> PedidoItems.id r = PedidoItems.id a -> False).
  { intros r Hr Heq. apply Hnotin. rewrite <- Heq. now apply in_map. }
  simpl. destruct Hin as [->|Hin].
  - rewrite String.eqb_refl. f_equal.
    clear IH Hnd Hnd' Hnotin.
    induction l as [|b l IHl]; [reflexivity|]. simpl.
    destruct (String.eqb (PedidoItems.id b) (PedidoItems.id OLD)) eqn:E.
    + apply String.eqb_eq in E. exfalso. apply (Hrest b); [now left|exact E].
    + apply IHl. intros r Hr. apply Hrest. now right.
  - destruct (String.eqb (PedidoItems.id a) (PedidoItems.id OLD)) eqn:E.
    + apply String.eqb_eq in E. exfalso. apply (Hrest OLD Hin). now symmetry.
    + now apply IH.
Qed.

(** C1. After an update that changes the status of one item (rows are
    identified by their primary key), the trigger rewrites the item's
    parent order and no other: its status becomes 'preparacion' when every
    item of that order is 'confirmado', otherwise 'confirmado_parcial'
    when some item of that order is 'confirmado' or 'no_confirmado', and
    otherwise stays what it was. *)
Theorem item_update_recomputes_parent_status :
  forall (now : timestamptz) (itemId : uuid) (e : option string)
         (db : database) (OLD : PedidoItems.row),
    NoDup (map PedidoItems.id (pedido_items db)) ->
    In OLD (pedido_items db) ->
    PedidoItems.id OLD = itemId ->
    is_distinct_from (PedidoItems.estado OLD) e = true ->
    let db' := update_item_estado now itemId e db in
    let items := items_of (PedidoItems.pedido_id OLD) (pedido_items db') in
    pedidos db'
    = map (fun o =>
             if sql_eq (Some (Pedidos.id o)) (PedidoItems.pedido_id OLD)
             then Pedidos.mk (Pedidos.id o)
                    (if every_item_confirmado items then Some "preparacion"
                     else if some_item_decided items then Some "confirmado_parcial"
                     else Pedidos.estado o)
                    now
             else o)
          (pedidos db).
Proof.
  intros now itemId e db OLD Hnd Hin Hid Hch db' items.
  subst db' items. unfold update_item_estado.
  destruct (update_pedido_items_spec now
              (fun r => String.eqb (PedidoItems.id r) itemId) (set_estado e) db)
    as [Hitems Hpedidos].
  rewrite Hpedidos, Hitems. clear Hpedidos Hitems.
  unfold updated_rows. subst itemId.
  rewrite (filter_primary_key _ _ Hnd Hin). simpl.
  apply map_ext. intros o.
  unfold fires_for; simpl. rewrite Hch, orb_false_r. simpl.
  destruct (sql_eq (Some (Pedidos.id o)) (PedidoItems.pedido_id OLD)) eqn:E;
    [|reflexivity].
  unfold recompute_order, recomputed_estado.
  now rewrite (sql_eq_Some _ _ E).
Qed.

Lemma sample_db_primary_key : NoDup (map PedidoItems.id (pedido_items sample_db)).
Proof.
  simpl. repeat constructor; simpl; intuition discriminate.
Defined.

Lemma item_update_recomputes_parent_status_witness :
  pedidos (update_item_estado 7%Z "a" (Some "confirmado") sample_db)
  = [Pedidos.mk "p1" (Some "preparacion") 7%Z;
     Pedidos.mk "p2" (Some "recibido") 0%Z].
Proof.
  exact (item_update_recomputes_parent_status 7%Z "a" (Some "confirmado")
           sample_db (PedidoItems.mk "a" (Some "p1") (Some "pendiente"))
           sample_db_primary_key (or_introl eq_refl) eq_refl eq_refl).
Defined.

(** C9. Whatever rows an update of the items table rewrites, every order
    keeps its identity and ends with 'preparacion', with
    'confirmado_parcial' or with the status it had; and an order one of
    whose items changed status, all of its items now being 'confirmado',
    ends with 'preparacion' whatever it had before, 'entregado' and
    'cancelado' included. *)
Theorem recomputation_assigns_only_two_statuses :
  forall (now : timestamptz) (cond : PedidoItems.row -> bool)
         (set : PedidoItems.row -> PedidoItems.row) (db : database),
    let db' := update_pedido_items now cond set db in
    Forall2 (fun o o' =>
               Pedidos.id o' = Pedidos.id o
               /\ (Pedidos.estado o' = Some "preparacion"
                   \/ Pedidos.estado o' = Some "confirmado_parcial"
                   \/ Pedidos.estado o' = Pedidos.estado o))
            (pedidos db) (pedidos db')
    /\ forall (OLD : PedidoItems.row) (o : Pedidos.row),
         In OLD (pedido_items db) -> cond OLD = true ->
         is_distinct_from (PedidoItems.estado OLD)
                          (PedidoItems.estado (set OLD)) = true ->
         PedidoItems.pedido_id (set OLD) = Some (Pedidos.id o) ->
         In o (pedidos db) ->
         every_item_confirmado
           (items_of (Some (Pedidos.id o)) (pedido_items db')) = true ->
         In (Pedidos.mk (Pedidos.id o) (Some "preparacion") now) (pedidos db').
Proof.
  intros now cond set db db'. subst db'.
  destruct (update_pedido_items_spec now cond set db) as [Hitems Hpedidos].
  rewrite Hpedidos, Hitems. clear Hpedidos Hitems. split.
  - induction (pedidos db) as [|o os IH]; simpl; constructor; [|exact IH].
    destruct (existsb (fires_for o) (updated_rows cond set db)); simpl.
    + split; [reflexivity|]. apply recomputed_estado_cases.
    + split; [reflexivity|]. right. now right.
  - intros OLD o Hin Hcond Hch Hparent Ho Hall.
    apply in_map_iff. exists o. split; [|exact Ho].
    assert (Hfire : existsb (fires_for o) (updated_rows cond set db) = true).
    { apply existsb_exists. exists (OLD, set OLD). split.
      - unfold updated_rows. apply in_map_iff. exists OLD. split; [reflexivity|].
        apply filter_In. now split.
      - unfold fires_for; simpl. rewrite Hch, Hparent.
        unfold sql_eq. now rewrite String.eqb_refl. }
    rewrite Hfire. unfold recompute_order, recomputed_estado.
    now rewrite Hall.
Qed.

Lemma recomputation_assigns_only_two_statuses_witness :
  In (Pedidos.mk "p1" (Some "preparacion") 7%Z)
     (pedidos (update_item_estado 7%Z "a" (Some "confirmado") sample_db)).
Proof.
  exact (proj2 (recomputation_assigns_only_two_statuses 7%Z
                  (fun r => String.eqb (PedidoItems.id r) "a")
                  (set_estado (Some "confirmado")) sample_db)
               (PedidoItems.mk "a" (Some "p1") (Some "pendiente"))
               (Pedidos.mk "p1" (Some "entregado") 0%Z)
               (or_introl eq_refl) eq_refl eq_refl eq_refl
               (or_introl eq_refl) eq_refl).
Defined.

(** The same recomputation reopens a cancelled order. *)
Example cancelled_order_reopened :
  pedidos (update_item_estado 9%Z "x" (Some "confirmado")
             (mkdb [Pedidos.mk "p" (Some "cancelado") 0%Z]
                   [PedidoItems.mk "x" (Some "p") (Some "sin_stock")]))
  = [Pedidos.mk "p" (Some "preparacion") 9%Z].
Proof. reflexivity. Qed.

(** The statuses the trigger writes are accepted by the orders' check
    constraint, so the trigger's own [UPDATE] never aborts on it. *)
Lemma recomputed_estado_passes_check (items : list PedidoItems.row)
    (o : Pedidos.row) :
  pedidos_estado_workflow_check o = true ->
  check_in (recomputed_estado items (Pedidos.estado o))
           pedidos_estado_workflow_check_values = true.
Proof.
  intros H. destruct (recomputed_estado_cases items (Pedidos.estado o))
    as [-> | [-> | ->]]; [reflexivity|reflexivity|exact H].
Qed.

End Migration.

(** ** src/components/business/OperationalOrderManager.tsx *)

Module OperationalOrderManager.

Inductive Icon := Clock | AlertTriangle | CheckCircle2 | Truck | XCircle.

Record StatusConfig := mkConfig {
  label : string;
  color : string;
  icon : Icon;
  progress : Z
}.

(** The object literal [ORDER_STATUS_CONFIG], one property per line of the
    source, in the order [Object.entries] lists them. *)
Definition ORDER_STATUS_CONFIG : list (string * StatusConfig) :=
  [("recibido", mkConfig "Recibido" "bg-blue-500" Clock 10);
   ("revision", mkConfig "En Revisión" "bg-yellow-500" AlertTriangle 25);
   ("confirmado_parcial",
      mkConfig "Confirmado Parcial" "bg-orange-500" CheckCircle2 50);
   ("preparacion", mkConfig "En Preparación" "bg-purple-500" Clock 75);
   ("enviado", mkConfig "Enviado" "bg-green-500" Truck 90);
   ("entregado", mkConfig "Entregado" "bg-green-600" CheckCircle2 100);
   ("cancelado", mkConfig "Cancelado" "bg-red-500" XCircle 0)].

(** Property access [ORDER_STATUS_CONFIG[estado]]. *)
Fixpoint get (table : list (string * StatusConfig)) (estado : string)
    : option StatusConfig :=
  match table with
  | [] => None
  | (k, v) :: rest => if String.eqb k estado then Some v else get rest estado
  end.

(** [getOrderProgress]: [ORDER_STATUS_CONFIG[order.estado]?.progress || 0]. *)
Definition getOrderProgress (estado : string) : Z :=
  match get ORDER_STATUS_CONFIG estado with
  | Some c => progress c
  | None => 0%Z
  end.

Lemma get_defined_iff_key (table : list (string * StatusConfig)) (s : string) :
  (exists c, get table s = Some c)
  <-> existsb (String.eqb s) (map fst table) = true.
Proof.
  induction table as [|[k v] rest IH]; simpl.
  - split; [intros [c H]|intros H]; discriminate.
  - rewrite (String.eqb_sym s k).
    destruct (String.eqb k s); simpl; [|exact IH].
    split; [reflexivity|]. intros _. now exists v.
Qed.

(** C2. The status display table has exactly seven entries with pairwise
    distinct keys; its keys are the seven values of the check constraint
    on orders, so a status has an entry exactly when the constraint
    permits it; and every entry carries a label, a color and a progress
    percentage between 0 and 100. *)
Theorem ORDER_STATUS_CONFIG_matches_check_constraint :
  List.length ORDER_STATUS_CONFIG = 7%nat
  /\ NoDup (map fst ORDER_STATUS_CONFIG)
  /\ map fst ORDER_STATUS_CONFIG = Migration.pedidos_estado_workflow_check_values
  /\ (forall s : string,
        (exists c, get ORDER_STATUS_CONFIG s = Some c)
        <-> Migration.check_in (Some s)
              Migration.pedidos_estado_workflow_check_values = true)
  /\ Forall (fun kv => label (snd kv) <> "" /\ color (snd kv) <> ""
                       /\ (0 <= progress (snd kv) <= 100)%Z)
            ORDER_STATUS_CONFIG.
Proof.
  split; [reflexivity|].
  split; [simpl; repeat constructor; simpl; intuition discriminate|].
  split; [reflexivity|].
  split.
  - intros s. apply get_defined_iff_key.
  - repeat constructor; simpl; try discriminate; lia.
Qed.

End OperationalOrderManager.

(** ** The order timeline keeps a table of its own ([ORDER_STATUSES]),
    over the earlier six-value vocabulary; it is a different constant. *)

Module OrderTimeline.

Definition ORDER_STATUSES_keys : list string :=
  ["pendiente"; "confirmado"; "en_proceso"; "enviado"; "entregado"; "cancelado"].

Remark ORDER_STATUSES_is_another_table :
  List.length ORDER_STATUSES_keys = 6%nat
  /\ Migration.check_in (Some "en_proceso")
       Migration.pedidos_estado_workflow_check_values = false.
Proof. split; reflexivity. Qed.

End OrderTimeline.

(** ** src/components/ui/status-badge.tsx *)

Module StatusBadge.

Inductive Variant :=
  default | active | inactive | pending | success | error | warning.

Inductive Icon := CheckCircle | XCircle | AlertTriangle | Clock.

(** [String.prototype.toLowerCase] on the code units the status lists can
    match: the letters A-Z are mapped to a-z and every other unit is
    kept.  A unit outside ASCII never lowers to an ASCII letter that
    occurs in the lists, so it cannot make a status match either way. *)
Definition lower (c : ascii) : ascii :=
  let n := nat_of_ascii c in
  if (Nat.leb 65 n && Nat.leb n 90)%bool then ascii_of_nat (n + 32) else c.

Fixpoint toLowerCase (s : string) : string :=
  match s with
  | EmptyString => EmptyString
  | String c rest => String (lower c) (toLowerCase rest)
  end.

(** [Array.prototype.includes] on an array of strings. *)
Definition includes (l : list string) (s : string) : bool :=
  existsb (String.eqb s) l.

Definition getVariantFromStatus (status : string) : Variant :=
  let normalizedStatus := toLowerCase status in
  if includes ["activo"; "active"; "confirmado"; "entregado"; "success"]
              normalizedStatus
  then success
  else if includes ["inactivo"; "inactive"; "cancelado"; "error"]
                   normalizedStatus
  then error
  else if includes ["pendiente"; "pending"; "revision"; "preparacion"]
                   normalizedStatus
  then warning
  else default.

(** [variant || getVariantFromStatus(status)]: the prop is absent
    ([None]) or one of the seven non-empty literals, all of them truthy. *)
Definition finalVariant (variant : option Variant) (status : string) : Variant :=
  match variant with
  | Some v => v
  | None => getVariantFromStatus status
  end.

Definition getIcon (showIcon : bool) (v : Variant) : option Icon :=
  if negb showIcon then None
  else match v with
       | success => Some CheckCircle
       | error => Some XCircle
       | warning => Some AlertTriangle
       | pending => Some Clock
       | _ => None
       end.

Definition getClassName (v : Variant) : string :=
  match v with
  | success =>
      "bg-green-100 text-green-800 dark:bg-green-900 dark:text-green-200 border-green-200"
  | error =>
      "bg-red-100 text-red-800 dark:bg-red-900 dark:text-red-200 border-red-200"
  | warning =>
      "bg-yellow-100 text-yellow-800 dark:bg-yellow-900 dark:text-yellow-200 border-yellow-200"
  | pending =>
      "bg-blue-100 text-blue-800 dark:bg-blue-900 dark:text-blue-200 border-blue-200"
  | _ => ""
  end.

Lemma lower_idempotent (c : ascii) : lower (lower c) = lower c.
Proof.
  destruct c as [[] [] [] [] [] [] [] []]; reflexivity.
Qed.

Lemma toLowerCase_idempotent (s : string) :
  toLowerCase (toLowerCase s) = toLowerCase s.
Proof.
  induction s as [|c s IH]; simpl; [reflexivity|].
  now rewrite lower_idempotent, IH.
Qed.

Lemma getVariantFromStatus_range (s : string) :
  getVariantFromStatus s = success \/ getVariantFromStatus s = error
  \/ getVariantFromStatus s = warning \/ getVariantFromStatus s = default.
Proof.
  unfold getVariantFromStatus.
  destruct (includes _ _); [now left|].
  destruct (includes _ _); [right; now left|].
  destruct (includes _ _); [right; right; now left|].
  right; right; now right.
Qed.

(** C10. The variant derived from a status does not depend on letter
    case; it is never 'pending' ('pendiente' and 'pending' give
    'warning'); and the badge shows the clock icon, or the blue classes
    that go with it, only when the caller passed the variant 'pending'
    itself. *)
Theorem derived_variant_case_insensitive_never_pending :
  forall s : string,
    getVariantFromStatus s = getVariantFromStatus (toLowerCase s)
    /\ getVariantFromStatus s <> pending
    /\ getVariantFromStatus "pendiente" = warning
    /\ getVariantFromStatus "pending" = warning
    /\ forall (variant : option Variant) (showIcon : bool),
         getIcon showIcon (finalVariant variant s) = Some Clock
         \/ getClassName (finalVariant variant s) = getClassName pending ->
         variant = Some pending.
Proof.
  intros s.
  assert (Hnp : getVariantFromStatus s <> pending).
  { destruct (getVariantFromStatus_range s) as [H|[H|[H|H]]];
      rewrite H; discriminate. }
  split.
  { unfold getVariantFromStatus. now rewrite toLowerCase_idempotent. }
  split; [exact Hnp|].
  split; [reflexivity|].
  split; [reflexivity|].
  intros variant showIcon.
  destruct variant as [v|]; simpl.
  - destruct showIcon, v; simpl; intros [H|H]; try discriminate; reflexivity.
  - destruct (getVariantFromStatus s) eqn:E;
      try (exfalso; now apply Hnp);
      destruct showIcon; simpl; intros [H|H]; discriminate.
Qed.

Example mixed_case_status : getVariantFromStatus "PENDIENTE" = warning.
Proof. reflexivity. Qed.

End StatusBadge.

(** ** src/components/business/BusinessTools.tsx: the quote calculator *)

Module BusinessTools.

Record Product := mkProduct {
  id : string;
  nombre : string;
  precio : Q;
  sku : string
}.

(** [quantity] is an integer: the calculator only ever passes
    [item.quantity - 1], [item.quantity + 1] or [parseInt(...) || 0]. *)
Record QuoteItem := mkItem {
  product : Product;
  quantity : Z;
  discount : Q
}.

Definition same_product (productId : string) (item : QuoteItem) : bool :=
  String.eqb (id (product item)) productId.

(** [addProductToQuote]: [quoteItems] is the state the component was
    rendered with, which [find] inspects; the result is the updater handed
    to [setQuoteItems], which React applies to the current state. *)
Definition addProductToQuote (p : Product) (quoteItems : list QuoteItem)
    : list QuoteItem -> list QuoteItem :=
  match find (same_product (id p)) quoteItems with
  | Some existingItem =>
      fun items =>
        map (fun item =>
               if same_product (id p) item
               then mkItem (product item) (quantity item + 1) (discount item)
               else item)
            items
  | None => fun items => items ++ [mkItem p 1 0]
  end.

Definition updateQuantity (productId : string) (newQuantity : Z)
    : list QuoteItem -> list QuoteItem :=
  if (newQuantity <=? 0)%Z
  then fun items => filter (fun item => negb (same_product productId item)) items
  else fun items =>
         map (fun item =>
                if same_product productId item
                then mkItem (product item) newQuantity (discount item)
                else item)
             items.

(** [Math.max(0, Math.min(100, discount))]. *)
Definition clamp (d : Q) : Q := Qmax 0 (Qmin 100 d).

Definition updateDiscount (productId : string) (d : Q)
    : list QuoteItem -> list QuoteItem :=
  fun items =>
    map (fun item =>
           if same_product productId item
           then mkItem (product item) (quantity item) (clamp d)
           else item)
        items.

Definition clearQuote : list QuoteItem -> list QuoteItem := fun _ => [].

(** The handlers of the rendered calculator.  Each event is handled on
    the state of the last render and is followed by a render, so the
    rendered state and the current state are the same list.  A text field
    yields what [parseInt] / [parseFloat] read, [None] standing for [NaN];
    [|| 0] turns [NaN] (and 0) into 0. *)
Inductive Event :=
| ClickAdd (p : Product)
| ClickMinus (item : QuoteItem)
| ClickPlus (item : QuoteItem)
| TypeQuantity (item : QuoteItem) (parsed : option Z)
| TypeDiscount (item : QuoteItem) (parsed : option Q)
| ClickClear.

Definition or_zero_Z (parsed : option Z) : Z :=
  match parsed with Some n => n | None => 0%Z end.

Definition or_zero_Q (parsed : option Q) : Q :=
  match parsed with Some q => q | None => 0 end.

Definition handle (quoteItems : list QuoteItem) (e : Event) : list QuoteItem :=
  match e with
  | ClickAdd p => addProductToQuote p quoteItems quoteItems
  | ClickMinus item =>
      updateQuantity (id (product item)) (quantity item - 1) quoteItems
  | ClickPlus item =>
      updateQuantity (id (product item)) (quantity item + 1) quoteItems
  | TypeQuantity item parsed =>
      updateQuantity (id (product item)) (or_zero_Z parsed) quoteItems
  | TypeDiscount item parsed =>
      updateDiscount (id (product item)) (or_zero_Q parsed) quoteItems
  | ClickClear => clearQuote quoteItems
  end.

Definition product_ids (items : list QuoteItem) : list string :=
  map (fun item => id (product item)) items.

Definition item_ok (item : QuoteItem) : Prop :=
  (1 <= quantity item)%Z /\ 0 <= discount item /\ discount item <= 100.

(** The state invariant of the calculator. *)
Definition quote_ok (items : list QuoteItem) : Prop :=
  NoDup (product_ids items) /\ Forall item_ok items.

Definition sample_quote : list QuoteItem :=
  [mkItem (mkProduct "p1" "Caja" (37 # 2) "SKU-1") 2 (5 # 1)].

Lemma find_same_product_None (pid : string) (items : list QuoteItem) :
  find (same_product pid) items = None -> ~ In pid (product_ids items).
Proof.
  induction items as [|a l IH]; simpl; [tauto|].
  unfold same_product at 1.
  destruct (String.eqb (id (product a)) pid) eqn:E; [discriminate|].
  intros H [Heq|Hin]; [|now apply IH].
  apply String.eqb_neq in E. contradiction.
Qed.

Lemma find_same_product_Some (pid : string) (items : list QuoteItem)
    (it : QuoteItem) :
  find (same_product pid) items = Some it -> In pid (product_ids items).
Proof.
  intros H. apply find_some in H. destruct H as [Hin Hsame].
  unfold same_product in Hsame. apply String.eqb_eq in Hsame. subst pid.
  unfold product_ids. now apply (in_map (fun item => id (product item))).
Qed.

Lemma product_ids_map_same (f : QuoteItem -> QuoteItem) (items : list QuoteItem) :
  (forall item, id (product (f item)) = id (product item)) ->
  product_ids (map f items) = product_ids items.
Proof.
  intros H. unfold product_ids. rewrite map_map. now apply map_ext.
Qed.

Lemma NoDup_product_ids_filter (keep : QuoteItem -> bool) (items : list QuoteItem) :
  NoDup (product_ids items) -> NoDup (product_ids (filter keep items)).
Proof.
  induction items as [|a l IH]; simpl; [trivial|].
  intros Hnd. inversion Hnd as [|x xs Hnotin Hnd']; subst.
  destruct (keep a); simpl; [|now apply IH].
  constructor; [|now apply IH].
  intros Hin. apply Hnotin. unfold product_ids in *.
  apply in_map_iff in Hin. destruct Hin as [b [Hb Hin]].
  apply filter_In in Hin. destruct Hin as [Hin _]. rewrite <- Hb.
  now apply (in_map (fun item => id (product item))).
Qed.

Lemma Forall_filter_keeps {A : Type} (P : A -> Prop) (keep : A -> bool)
    (l : list A) :
  Forall P l -> Forall P (filter keep l).
Proof.
  intros H. apply Forall_forall. intros x Hx. apply filter_In in Hx.
  rewrite Forall_forall in H. now apply H.
Qed.

Lemma clamp_range (d : Q) : 0 <= clamp d /\ clamp d <= 100.
Proof.
  unfold clamp. split.
  - apply Q.le_max_l.
  - apply Q.max_lub; [discriminate|apply Q.le_min_l].
Qed.

Lemma addProductToQuote_ok (p : Product) (items : list QuoteItem) :
  quote_ok items -> quote_ok (addProductToQuote p items items).
Proof.
  intros [Hnd Hall]. unfold addProductToQuote.
  destruct (find (same_product (id p)) items) as [existing|] eqn:E.
  - split.
    + rewrite product_ids_map_same; [exact Hnd|].
      intros item. now destruct (same_product (id p) item).
    + apply Forall_map. eapply Forall_impl; [|exact Hall].
      intros item [Hq Hd]. destruct (same_product (id p) item); unfold item_ok; simpl.
      * split; [lia|exact Hd].
      * now split.
  - apply find_same_product_None in E. split.
    + unfold product_ids in *. rewrite map_app. simpl.
      apply NoDup_app; [exact Hnd|repeat constructor; simpl; tauto|].
      intros x Hx [<-|[]]. contradiction.
    + apply Forall_app. split; [exact Hall|].
      constructor; [|constructor].
      unfold item_ok; simpl. repeat split; [lia|discriminate|discriminate].
Qed.

Lemma updateQuantity_ok (pid : string) (n : Z) (items : list QuoteItem) :
  quote_ok items -> quote_ok (updateQuantity pid n items).
Proof.
  intros [Hnd Hall]. unfold updateQuantity.
  destruct (n <=? 0)%Z eqn:E.
  - split; [now apply NoDup_product_ids_filter|now apply Forall_filter_keeps].
  - apply Z.leb_gt in E. split.
    + rewrite product_ids_map_same; [exact Hnd|].
      intros item. now destruct (same_product pid item).
    + apply Forall_map. eapply Forall_impl; [|exact Hall].
      intros item [Hq Hd]. destruct (same_product pid item); unfold item_ok; simpl.
      * split; [lia|exact Hd].
      * now split.
Qed.

Lemma updateDiscount_ok (pid : string) (d : Q) (items : list QuoteItem) :
  quote_ok items -> quote_ok (updateDiscount pid d items).
Proof.
  intros [Hnd Hall]. unfold updateDiscount. split.
  - rewrite product_ids_map_same; [exact Hnd|].
    intros item. now destruct (same_product pid item).
  - apply Forall_map. eapply Forall_impl; [|exact Hall].
    intros item [Hq Hd]. destruct (same_product pid item); unfold item_ok; simpl.
    + split; [exact Hq|apply clamp_range].
    + now split.
Qed.

Lemma find_same_product_In (pid : string) (items : list QuoteItem) :
  In pid (product_ids items) ->
  exists it, find (same_product pid) items = Some it.
Proof.
  intros Hin. destruct (find (same_product pid) items) as [it|] eqn:E.
  - now exists it.
  - apply find_same_product_None in E. contradiction.
Qed.

Lemma updateQuantity_removes (pid : string) (n : Z) (items : list QuoteItem) :
  (n <= 0)%Z -> ~ In pid (product_ids (updateQuantity pid n items)).
Proof.
  intros Hn. unfold updateQuantity.
  apply Z.leb_le in Hn. rewrite Hn.
  unfold product_ids. intros Hin. apply in_map_iff in Hin.
  destruct Hin as [item [Hid Hin]]. apply filter_In in Hin.
  destruct Hin as [_ Hkeep]. unfold same_product in Hkeep.
  rewrite Hid, String.eqb_refl in Hkeep. discriminate.
Qed.

(** C8. Each of the three operations of the quote calculator keeps the
    state invariant (every product id in at most one item, every
    quantity at least 1, every discount between 0 and 100).  Adding a
    product already in the quote increments its quantity and appends
    nothing, adding a new one appends it with quantity 1 and discount 0;
    a quantity of 0 or less removes the product; a discount is stored
    clamped to the range 0..100. *)
Theorem quote_invariants_preserved :
  forall items : list QuoteItem,
    quote_ok items ->
    (forall p : Product,
        quote_ok (addProductToQuote p items items)
        /\ (In (id p) (product_ids items) ->
            addProductToQuote p items items
            = map (fun item =>
                     if same_product (id p) item
                     then mkItem (product item) (quantity item + 1) (discount item)
                     else item)
                  items)
        /\ (~ In (id p) (product_ids items) ->
            addProductToQuote p items items = items ++ [mkItem p 1 0]))
    /\ (forall (productId : string) (newQuantity : Z),
          quote_ok (updateQuantity productId newQuantity items)
          /\ ((newQuantity <= 0)%Z ->
              ~ In productId
                   (product_ids (updateQuantity productId newQuantity items))))
    /\ (forall (productId : string) (d : Q),
          quote_ok (updateDiscount productId d items)
          /\ 0 <= clamp d /\ clamp d <= 100
          /\ forall item, In item (updateDiscount productId d items) ->
               id (product item) = productId -> discount item = clamp d).
Proof.
  intros items Hok. split; [|split].
  - intros p. split; [now apply addProductToQuote_ok|]. split.
    + intros Hin. destruct (find_same_product_In _ _ Hin) as [it E].
      unfold addProductToQuote. now rewrite E.
    + intros Hnotin. unfold addProductToQuote.
      destruct (find (same_product (id p)) items) as [it|] eqn:E; [|reflexivity].
      apply find_same_product_Some in E. contradiction.
  - intros pid n. split;
      [now apply updateQuantity_ok|apply updateQuantity_removes].
  - intros pid d. split; [now apply updateDiscount_ok|].
    destruct (clamp_range d) as [H0 H100]. split; [exact H0|].
    split; [exact H100|].
    intros item Hin Hid. unfold updateDiscount in Hin.
    apply in_map_iff in Hin. destruct Hin as [it [Heq Hin]].
    destruct (same_product pid it) eqn:E; subst item; simpl in *;
      [reflexivity|].
    unfold same_product in E. rewrite Hid, String.eqb_refl in E. discriminate.
Qed.

Lemma sample_quote_ok : quote_ok sample_quote.
Proof.
  split.
  - simpl. repeat constructor; simpl; tauto.
  - repeat constructor; simpl; try lia; discriminate.
Defined.

Lemma quote_invariants_preserved_witness :
  quote_ok (addProductToQuote (mkProduct "p1" "Caja" (37 # 2) "SKU-1")
              sample_quote sample_quote)
  /\ quote_ok (updateQuantity "p1" 0 sample_quote)
  /\ quote_ok (updateDiscount "p1" (250 # 1) sample_quote).
Proof.
  pose (H := quote_invariants_preserved sample_quote sample_quote_ok).
  split; [|split].
  - exact (proj1 (proj1 H (mkProduct "p1" "Caja" (37 # 2) "SKU-1"))).
  - exact (proj1 (proj1 (proj2 H) "p1" 0%Z)).
  - exact (proj1 (proj2 (proj2 H) "p1" (250 # 1))).
Defined.

Example readd_increments :
  addProductToQuote (mkProduct "p1" "Caja" (37 # 2) "SKU-1")
    sample_quote sample_quote
  = [mkItem (mkProduct "p1" "Caja" (37 # 2) "SKU-1") 3 (5 # 1)].
Proof. reflexivity. Qed.

Example discount_clamped :
  updateDiscount "p1" (250 # 1) sample_quote
  = [mkItem (mkProduct "p1" "Caja" (37 # 2) "SKU-1") 2 100].
Proof. reflexivity. Qed.

(** Every state the rendered calculator can reach satisfies the invariant. *)
Lemma handle_ok (items : list QuoteItem) (e : Event) :
  quote_ok items -> quote_ok (handle items e).
Proof.
  intros Hok. destruct e; simpl.
  - now apply addProductToQuote_ok.
  - now apply updateQuantity_ok.
  - now apply updateQuantity_ok.
  - now apply updateQuantity_ok.
  - now apply updateDiscount_ok.
  - split; constructor.
Qed.

Lemma reachable_quote_ok (events : list Event) :
  quote_ok (fold_left handle events []).
Proof.
  assert (H : forall items, quote_ok items -> quote_ok (fold_left handle events items)).
  { induction events as [|e es IH]; intros items Hok; simpl; [exact Hok|].
    apply IH. now apply handle_ok. }
  apply H. split; constructor.
Qed.

End BusinessTools.

(** ** JavaScript built-ins shared by the components *)

Module JS.

(** [Array.prototype.sort(compare)]: the result is the stable ordering
    by [compare]; [a] goes after [b] when [compare a b > 0]. *)
Definition goes_after {A : Type} (compare : A -> A -> Q) (a b : A) : bool :=
  negb (Qle_bool (compare a b) 0).

Fixpoint sort_insert {A : Type} (compare : A -> A -> Q) (x : A) (l : list A)
    : list A :=
  match l with
  | [] => [x]
  | y :: rest =>
      if goes_after compare x y then y :: sort_insert compare x rest
      else x :: y :: rest
  end.

Fixpoint sort {A : Type} (compare : A -> A -> Q) (l : list A) : list A :=
  match l with
  | [] => []
  | x :: rest => sort_insert compare x (sort compare rest)
  end.

Lemma sort_insert_perm {A : Type} (compare : A -> A -> Q) (x : A) (l : list A) :
  Permutation (x :: l) (sort_insert compare x l).
Proof.
  induction l as [|y rest IH]; simpl; [reflexivity|].
  destruct (goes_after compare x y); [|reflexivity].
  rewrite perm_swap. now constructor.
Qed.

Lemma sort_perm {A : Type} (compare : A -> A -> Q) (l : list A) :
  Permutation l (sort compare l).
Proof.
  induction l as [|x rest IH]; simpl; [constructor|].
  rewrite <- sort_insert_perm. now constructor.
Qed.

End JS.

(** ** src/components/business/ReportGenerator.tsx: [processReportData]

    The summary and the top products are modelled; the two other parts
    of the report ([clientSales], [monthlySales]) are computed from the
    same orders independently of these and are left out. *)

Module ReportGenerator.

Import JS.

Record producto := mkProducto {
  nombre : string;
  sku : string
}.

(** A row of [pedido_items] as the query embeds it; [productos] is the
    joined product, [None] when the join is null. *)
Record pedido_item := mkPedidoItem {
  cantidad : Z;
  precio_unitario : Q;
  productos : option producto
}.

(** A fetched order: the fields [processReportData] reads for the summary
    and the top products.  [pedido_items] is [None] when the property is
    absent, which [?.] tolerates. *)
Record order := mkOrder {
  total : Q;
  cliente_id : string;
  pedido_items : option (list pedido_item)
}.

(** [parseFloat] of a numeric field: the number itself. *)
Definition parseFloat (x : Q) : Q := x.

(** *** JavaScript [Set] and [Map], in insertion order *)

Definition Set_add (x : string) (s : list string) : list string :=
  if existsb (String.eqb x) s then s else s ++ [x].

Definition new_Set (values : list string) : list string :=
  fold_left (fun s x => Set_add x s) values [].

Fixpoint Map_has {V : Type} (k : string) (m : list (string * V)) : bool :=
  match m with
  | [] => false
  | (k', _) :: rest => String.eqb k' k || Map_has k rest
  end.

Fixpoint Map_get {V : Type} (k : string) (m : list (string * V)) : option V :=
  match m with
  | [] => None
  | (k', v) :: rest => if String.eqb k' k then Some v else Map_get k rest
  end.

(** [set] replaces the value of a present key where it stands and
    appends an absent key. *)
Fixpoint Map_set {V : Type} (k : string) (v : V) (m : list (string * V))
    : list (string * V) :=
  match m with
  | [] => [(k, v)]
  | (k', v') :: rest =>
      if String.eqb k' k then (k', v) :: rest else (k', v') :: Map_set k v rest
  end.

(** *** The summary *)

Record Summary := mkSummary {
  totalSales : Q;
  totalOrders : nat;
  totalClients : nat;
  avgOrderValue : Q
}.

Definition number_of_nat (n : nat) : Q := inject_Z (Z.of_nat n).

Definition summary (orders : list order) : Summary :=
  let totalSales :=
    fold_left (fun sum order => sum + parseFloat (total order)) orders 0 in
  let totalOrders := List.length orders in
  let totalClients := List.length (new_Set (map cliente_id orders)) in
  mkSummary totalSales totalOrders totalClients
    (if Nat.ltb 0 totalOrders
     then totalSales / number_of_nat totalOrders
     else 0).

(** *** The top products *)

Record Stats := mkStats {
  stats_sales : Q;
  stats_quantity : Z
}.

Record TopProduct := mkTop {
  name : string;
  sales : Q;
  quantity : Z
}.

(** [item.productos?.nombre || 'Producto desconocido']: the empty name
    is falsy. *)
Definition productName (item : pedido_item) : string :=
  match productos item with
  | Some p => if String.eqb (nombre p) "" then "Producto desconocido" else nombre p
  | None => "Producto desconocido"
  end.

(** The body of the inner [forEach].  [current] is the object stored in
    the map, so the two [+=] change the entry itself. *)
Definition add_item (productStats : list (string * Stats)) (item : pedido_item)
    : list (string * Stats) :=
  let productStats :=
    if negb (Map_has (productName item) productStats)
    then Map_set (productName item) (mkStats 0 0) productStats
    else productStats in
  match Map_get (productName item) productStats with
  | Some current =>
      Map_set (productName item)
        (mkStats
           (stats_sales current
            + inject_Z (cantidad item) * parseFloat (precio_unitario item))
           (stats_quantity current + cantidad item))
        productStats
  | None => productStats
  end.

Definition items_of_order (o : order) : list pedido_item :=
  match pedido_items o with
  | Some items => items
  | None => []
  end.

Definition productStats (orders : list order) : list (string * Stats) :=
  fold_left (fun m o => fold_left add_item (items_of_order o) m) orders [].

Definition by_sales_desc (a b : TopProduct) : Q := sales b - sales a.

Definition product_entries (orders : list order) : list TopProduct :=
  map (fun e => mkTop (fst e) (stats_sales (snd e)) (stats_quantity (snd e)))
      (productStats orders).

Definition topProducts (orders : list order) : list TopProduct :=
  firstn 10 (sort by_sales_desc (product_entries orders)).

Record ReportData := mkReport {
  report_summary : Summary;
  report_topProducts : list TopProduct
}.

Definition processReportData (orders : list order) : ReportData :=
  mkReport (summary orders) (topProducts orders).

(** *** The claims' wording *)

Fixpoint sum_Q (l : list Q) : Q :=
  match l with
  | [] => 0
  | x :: rest => x + sum_Q rest
  end.

Fixpoint sum_Z (l : list Z) : Z :=
  match l with
  | [] => 0%Z
  | x :: rest => (x + sum_Z rest)%Z
  end.

Definition all_items (orders : list order) : list pedido_item :=
  flat_map items_of_order orders.

Definition items_named (n : string) (items : list pedido_item) : list pedido_item :=
  filter (fun i => String.eqb (productName i) n) items.

Definition group_sales (n : string) (items : list pedido_item) : Q :=
  sum_Q (map (fun i => inject_Z (cantidad i) * precio_unitario i)
             (items_named n items)).

Definition group_quantity (n : string) (items : list pedido_item) : Z :=
  sum_Z (map cantidad (items_named n items)).

(** What one item adds to the statistics of its product. *)
Definition add_to (current : Stats) (item : pedido_item) : Stats :=
  mkStats
    (stats_sales current
     + inject_Z (cantidad item) * parseFloat (precio_unitario item))
    (stats_quantity current + cantidad item).

(** The statistics of the product named [n] alone. *)
Definition add_if_named (n : string) (current : Stats) (item : pedido_item)
    : Stats :=
  if String.eqb (productName item) n then add_to current item else current.

Definition get_or_zero (n : string) (m : list (string * Stats)) : Stats :=
  match Map_get n m with
  | Some st => st
  | None => mkStats 0 0
  end.

(** [a] may stand before [b] in a list of non-increasing sales. *)
Definition sales_ge (a b : TopProduct) : Prop := sales b <= sales a.

Definition caja := Some (mkProducto "Caja" "C-1").
Definition bandeja := Some (mkProducto "Bandeja" "B-1").

Definition sample_orders : list order :=
  [mkOrder (57 # 2) "c1"
     (Some [mkPedidoItem 1 (37 # 2) caja; mkPedidoItem 2 (5 # 1) None]);
   mkOrder (100 # 1) "c2"
     (Some [mkPedidoItem 4 (20 # 1) bandeja; mkPedidoItem 1 (20 # 1) caja]);
   mkOrder (3 # 2) "c1" None].

Example sample_summary :
  totalSales (summary sample_orders) == 130
  /\ totalOrders (summary sample_orders) = 3%nat
  /\ totalClients (summary sample_orders) = 2%nat
  /\ avgOrderValue (summary sample_orders) == 130 / 3.
Proof. repeat split. Qed.

Example sample_topProducts :
  map (fun t => (name t, Qred (sales t), quantity t)) (topProducts sample_orders)
  = [("Bandeja", 80, 4%Z); ("Caja", 77 # 2, 2%Z);
     ("Producto desconocido", 10, 2%Z)].
Proof. vm_compute. reflexivity. Qed.

(** *** The summary *)

Lemma reduce_total (orders : list order) (acc : Q) :
  fold_left (fun sum order => sum + parseFloat (total order)) orders acc
  == acc + sum_Q (map total orders).
Proof.
  revert acc. induction orders as [|o os IH]; intros acc; simpl.
  - ring.
  - rewrite IH. unfold parseFloat. ring.
Qed.

Lemma Set_add_In (x y : string) (s : list string) :
  In y (Set_add x s) <-> In y s \/ y = x.
Proof.
  unfold Set_add. destruct (existsb (String.eqb x) s) eqn:E.
  - split; [now left|]. intros [H| ->]; [exact H|].
    apply existsb_exists in E. destruct E as [z [Hz Heq]].
    apply String.eqb_eq in Heq. now subst z.
  - rewrite in_app_iff. simpl. split.
    + intros [H|[H|[]]]; [now left|right; now symmetry].
    + intros [H| ->]; [now left|right; now left].
Qed.

Lemma Set_add_NoDup (x : string) (s : list string) :
  NoDup s -> NoDup (Set_add x s).
Proof.
  intros Hnd. unfold Set_add.
  destruct (existsb (String.eqb x) s) eqn:E; [exact Hnd|].
  apply NoDup_app; [exact Hnd|repeat constructor; simpl; tauto|].
  intros y Hy [<-|[]].
  assert (Hex : existsb (String.eqb x) s = true).
  { apply existsb_exists. exists x. split; [exact Hy|apply String.eqb_refl]. }
  rewrite Hex in E. discriminate.
Qed.

Lemma fold_Set_add (values s : list string) :
  NoDup s ->
  NoDup (fold_left (fun s x => Set_add x s) values s)
  /\ forall y, In y (fold_left (fun s x => Set_add x s) values s)
               <-> In y s \/ In y values.
Proof.
  revert s. induction values as [|v vs IH]; intros s Hnd; simpl.
  - split; [exact Hnd|]. intros y. tauto.
  - destruct (IH (Set_add v s) (Set_add_NoDup v s Hnd)) as [Hnd' Hin].
    split; [exact Hnd'|]. intros y. rewrite Hin, Set_add_In. intuition.
Qed.

(** The size of the [Set] is the number of distinct values. *)
Lemma new_Set_size (values : list string) :
  List.length (new_Set values) = List.length (nodup string_dec values).
Proof.
  destruct (fold_Set_add values [] (NoDup_nil _)) as [Hnd Hin].
  apply Permutation_length. apply NoDup_Permutation.
  - exact Hnd.
  - apply NoDup_nodup.
  - intros y. unfold new_Set. rewrite Hin, nodup_In. simpl. tauto.
Qed.

(** C3. The summary of a report: [totalSales] is the sum of the orders'
    totals, [totalOrders] their number, [totalClients] the number of
    distinct client ids among them, and [avgOrderValue] is [totalSales]
    divided by [totalOrders] when there is an order and 0 when the list
    is empty. *)
Theorem summary_of_processReportData :
  forall orders : list order,
    let s := report_summary (processReportData orders) in
    totalSales s == sum_Q (map total orders)
    /\ totalOrders s = List.length orders
    /\ totalClients s
       = List.length (nodup string_dec (map cliente_id orders))
    /\ ((0 < totalOrders s)%nat ->
        avgOrderValue s = totalSales s / number_of_nat (totalOrders s))
    /\ (orders = [] -> avgOrderValue s = 0).
Proof.
  intros orders s. subst s. simpl.
  split; [rewrite reduce_total; ring|].
  split; [reflexivity|].
  split; [apply new_Set_size|].
  split.
  - intros Hpos. apply Nat.ltb_lt in Hpos. now rewrite Hpos.
  - intros ->. reflexivity.
Qed.

(** *** The map of product statistics *)

Section MapLemmas.
Context {V : Type}.
Implicit Types (m : list (string * V)) (k : string) (v : V).

Lemma Map_has_get k m : Map_has k m = true <-> Map_get k m <> None.
Proof.
  induction m as [|[k' v'] rest IH]; simpl.
  - split; [discriminate|congruence].
  - destruct (String.eqb k' k); simpl; [|exact IH].
    split; [discriminate|reflexivity].
Qed.

Lemma Map_has_keys k m : Map_has k m = true <-> In k (map fst m).
Proof.
  induction m as [|[k' v'] rest IH]; simpl.
  - split; [discriminate|tauto].
  - destruct (String.eqb k' k) eqn:E; simpl.
    + apply String.eqb_eq in E. tauto.
    + apply String.eqb_neq in E. rewrite IH. tauto.
Qed.

Lemma Map_get_set k k' v m :
  Map_get k' (Map_set k v m)
  = if String.eqb k k' then Some v else Map_get k' m.
Proof.
  induction m as [|[k0 v0] rest IH]; simpl.
  - reflexivity.
  - destruct (String.eqb k0 k) eqn:E; simpl.
    + apply String.eqb_eq in E. subst k0.
      now destruct (String.eqb k k').
    + destruct (String.eqb k0 k') eqn:E'; [|exact IH].
      apply String.eqb_eq in E'. subst k0. now rewrite String.eqb_sym, E.
Qed.

Lemma Map_set_keys k v m :
  map fst (Map_set k v m)
  = if Map_has k m then map fst m else map fst m ++ [k].
Proof.
  induction m as [|[k0 v0] rest IH]; simpl; [reflexivity|].
  destruct (String.eqb k0 k) eqn:E; simpl; [reflexivity|].
  rewrite IH. now destruct (Map_has k rest).
Qed.

Lemma Map_set_NoDup k v m :
  NoDup (map fst m) -> NoDup (map fst (Map_set k v m)).
Proof.
  intros Hnd. rewrite Map_set_keys.
  destruct (Map_has k m) eqn:E; [exact Hnd|].
  apply NoDup_app; [exact Hnd|repeat constructor; simpl; tauto|].
  intros x Hx [<-|[]].
  apply Map_has_keys in Hx. rewrite Hx in E. discriminate.
Qed.

Lemma Map_get_In k v m :
  NoDup (map fst m) -> In (k, v) m -> Map_get k m = Some v.
Proof.
  induction m as [|[k0 v0] rest IH]; simpl; [tauto|].
  intros Hnd Hin. inversion Hnd as [|x xs Hnotin Hnd']; subst.
  destruct Hin as [Heq|Hin].
  - inversion Heq; subst. now rewrite String.eqb_refl.
  - destruct (String.eqb k0 k) eqn:E; [|now apply IH].
    apply String.eqb_eq in E. subst k0. exfalso. apply Hnotin.
    now apply (in_map fst) in Hin.
Qed.

End MapLemmas.

Lemma add_item_get (m : list (string * Stats)) (item : pedido_item) (n : string) :
  Map_get n (add_item m item)
  = if String.eqb (productName item) n
    then Some (add_to (get_or_zero (productName item) m) item)
    else Map_get n m.
Proof.
  unfold add_item, get_or_zero.
  destruct (Map_has (productName item) m) eqn:Hhas; simpl.
  - apply Map_has_get in Hhas.
    destruct (Map_get (productName item) m) as [st|] eqn:Hget; [|congruence].
    now rewrite Map_get_set.
  - assert (Hget : Map_get (productName item) m = None).
    { destruct (Map_get (productName item) m) eqn:Hg; [|reflexivity].
      assert (Hh : Map_has (productName item) m = true)
        by (apply Map_has_get; congruence).
      rewrite Hh in Hhas. discriminate. }
    rewrite Hget, Map_get_set, String.eqb_refl, !Map_get_set.
    now destruct (String.eqb (productName item) n).
Qed.

Lemma add_item_NoDup (m : list (string * Stats)) (item : pedido_item) :
  NoDup (map fst m) -> NoDup (map fst (add_item m item)).
Proof.
  intros Hnd. unfold add_item.
  destruct (Map_has (productName item) m); simpl.
  - destruct (Map_get (productName item) m); [|exact Hnd].
    now apply Map_set_NoDup.
  - destruct (Map_get _ _); [|now apply Map_set_NoDup].
    now apply Map_set_NoDup, Map_set_NoDup.
Qed.

Lemma fold_add_item_NoDup (items : list pedido_item) :
  forall m, NoDup (map fst m) -> NoDup (map fst (fold_left add_item items m)).
Proof.
  induction items as [|i rest IH]; intros m Hnd; simpl; [exact Hnd|].
  apply IH. now apply add_item_NoDup.
Qed.

Lemma fold_add_item_get (items : list pedido_item) (n : string) :
  forall m,
    Map_get n (fold_left add_item items m)
    = match Map_get n m with
      | Some st => Some (fold_left (add_if_named n) items st)
      | None =>
          if existsb (fun i => String.eqb (productName i) n) items
          then Some (fold_left (add_if_named n) items (mkStats 0 0))
          else None
      end.
Proof.
  induction items as [|i rest IH]; intros m; simpl.
  - now destruct (Map_get n m).
  - rewrite IH, add_item_get.
    destruct (String.eqb (productName i) n) eqn:E; simpl.
    + assert (Hstep : forall st, add_if_named n st i = add_to st i)
        by (intros st; unfold add_if_named; now rewrite E).
      apply String.eqb_eq in E. subst n. unfold get_or_zero.
      destruct (Map_get (productName i) m); now rewrite Hstep.
    + assert (Hstep : forall st, add_if_named n st i = st)
        by (intros st; unfold add_if_named; now rewrite E).
      destruct (Map_get n m); now rewrite Hstep.
Qed.

Lemma fold_add_if_named (n : string) (items : list pedido_item) :
  forall st,
    stats_sales (fold_left (add_if_named n) items st)
    == stats_sales st + group_sales n items
    /\ stats_quantity (fold_left (add_if_named n) items st)
       = (stats_quantity st + group_quantity n items)%Z.
Proof.
  unfold group_sales, group_quantity, items_named.
  induction items as [|i rest IH]; intros st; simpl.
  - split; [ring|lia].
  - destruct (IH (add_if_named n st i)) as [Hs Hq]. rewrite Hs, Hq.
    unfold add_if_named.
    destruct (String.eqb (productName i) n); simpl; unfold parseFloat;
      split; try ring; lia.
Qed.

Lemma productStats_flat (orders : list order) :
  forall m,
    fold_left (fun m o => fold_left add_item (items_of_order o) m) orders m
    = fold_left add_item (all_items orders) m.
Proof.
  unfold all_items.
  induction orders as [|o os IH]; intros m; simpl; [reflexivity|].
  now rewrite fold_left_app, IH.
Qed.

Lemma productStats_spec (orders : list order) :
  let items := all_items orders in
  NoDup (map fst (productStats orders))
  /\ (forall n, In n (map fst (productStats orders))
                <-> exists i, In i items /\ productName i = n)
  /\ (forall k st, In (k, st) (productStats orders) ->
        stats_sales st == group_sales k items
        /\ stats_quantity st = group_quantity k items).
Proof.
  intros items. unfold productStats. rewrite productStats_flat. fold items.
  assert (Hnd : NoDup (map fst (fold_left add_item items [])))
    by (apply fold_add_item_NoDup; constructor).
  assert (Hget : forall n,
             Map_get n (fold_left add_item items [])
             = if existsb (fun i => String.eqb (productName i) n) items
               then Some (fold_left (add_if_named n) items (mkStats 0 0))
               else None)
    by (intros n; now rewrite fold_add_item_get).
  split; [exact Hnd|]. split.
  - intros n. rewrite <- Map_has_keys, Map_has_get, Hget.
    destruct (existsb (fun i => String.eqb (productName i) n) items) eqn:E.
    + apply existsb_exists in E. destruct E as [i [Hi Hn]].
      apply String.eqb_eq in Hn. split; [|discriminate].
      intros _. now exists i.
    + split; [congruence|]. intros [i [Hi Hn]].
      assert (Hex : existsb (fun i => String.eqb (productName i) n) items = true).
      { apply existsb_exists. exists i. split; [exact Hi|].
        now apply String.eqb_eq. }
      rewrite Hex in E. discriminate.
  - intros k st Hin. apply (Map_get_In _ _ _ Hnd) in Hin.
    rewrite Hget in Hin.
    destruct (existsb (fun i => String.eqb (productName i) k) items);
      [|discriminate].
    inversion Hin as [Hst].
    destruct (fold_add_if_named k items (mkStats 0 0)) as [Hs Hq].
    rewrite Hs, Hq. simpl. split; [ring|lia].
Qed.

(** *** Sorting by sales *)

Lemma goes_after_by_sales (a b : TopProduct) :
  goes_after by_sales_desc a b = true <-> sales a < sales b.
Proof.
  unfold goes_after, by_sales_desc. rewrite negb_true_iff.
  destruct (Qle_bool (sales b - sales a) 0) eqn:E.
  - apply Qle_bool_iff in E. split; [discriminate|]. intros H. lra.
  - split; [|reflexivity]. intros _.
    destruct (Qlt_le_dec (sales a) (sales b)) as [Hlt|Hle]; [exact Hlt|].
    assert (Hb : Qle_bool (sales b - sales a) 0 = true)
      by (apply Qle_bool_iff; lra).
    rewrite Hb in E. discriminate.
Qed.

Lemma sort_insert_sorted (x : TopProduct) (l : list TopProduct) :
  StronglySorted sales_ge l ->
  StronglySorted sales_ge (sort_insert by_sales_desc x l).
Proof.
  induction l as [|y rest IH]; intros Hs; simpl.
  - repeat constructor.
  - inversion Hs as [|y' rest' Hrest Hall]; subst.
    destruct (goes_after by_sales_desc x y) eqn:E.
    + apply goes_after_by_sales in E. constructor; [now apply IH|].
      apply (Permutation_Forall (sort_insert_perm by_sales_desc x rest)).
      constructor; [unfold sales_ge; lra|exact Hall].
    + assert (Hle : sales y <= sales x).
      { destruct (Qlt_le_dec (sales x) (sales y)) as [Hlt|Hle]; [|exact Hle].
        apply goes_after_by_sales in Hlt. rewrite Hlt in E. discriminate. }
      constructor; [exact Hs|]. constructor; [exact Hle|].
      eapply Forall_impl; [|exact Hall].
      intros z Hz. unfold sales_ge in *. lra.
Qed.

Lemma sort_sorted (l : list TopProduct) :
  StronglySorted sales_ge (sort by_sales_desc l).
Proof.
  induction l as [|x rest IH]; simpl; [constructor|].
  now apply sort_insert_sorted.
Qed.

Lemma StronglySorted_app_inv {A : Type} (R : A -> A -> Prop) (l1 l2 : list A) :
  StronglySorted R (l1 ++ l2) ->
  StronglySorted R l1 /\ forall a b, In a l1 -> In b l2 -> R a b.
Proof.
  induction l1 as [|x l1 IH]; simpl; intros Hs.
  - split; [constructor|]. intros a b [].
  - inversion Hs as [|x' l' Hrest Hall]; subst.
    destruct (IH Hrest) as [Hs1 Hcross].
    apply Forall_app in Hall. destruct Hall as [Hall1 Hall2].
    split; [now constructor|].
    intros a b [<-|Ha] Hb.
    + rewrite Forall_forall in Hall2. now apply Hall2.
    + now apply Hcross.
Qed.

(** C4. The top products of a report.  The product groups are the names
    of the fetched items, each once; a group's sales are the sum of
    quantity times unit price over its items and its quantity the sum of
    their quantities.  The list holds at most 10 groups in non-increasing
    order of sales; the groups left out have sales no greater than any
    group kept, and none is left out unless 10 are kept. *)
Theorem topProducts_of_processReportData :
  forall orders : list order,
    let items := all_items orders in
    let top := report_topProducts (processReportData orders) in
    (List.length top <= 10)%nat
    /\ StronglySorted (fun a b => sales b <= sales a) top
    /\ exists excluded : list TopProduct,
         NoDup (map name (top ++ excluded))
         /\ (forall n, In n (map name (top ++ excluded))
                       <-> exists i, In i items /\ productName i = n)
         /\ (forall g, In g (top ++ excluded) ->
               sales g == group_sales (name g) items
               /\ quantity g = group_quantity (name g) items)
         /\ (forall e t, In e excluded -> In t top -> sales e <= sales t)
         /\ (excluded <> [] -> List.length top = 10%nat).
Proof.
  intros orders items top. subst top. simpl. unfold topProducts.
  set (sorted := sort by_sales_desc (product_entries orders)).
  assert (Hsorted : StronglySorted sales_ge sorted) by apply sort_sorted.
  assert (Hperm : Permutation (product_entries orders) sorted)
    by apply sort_perm.
  rewrite <- (firstn_skipn 10 sorted) in Hsorted.
  apply StronglySorted_app_inv in Hsorted. destruct Hsorted as [Htop Hcross].
  destruct (productStats_spec orders) as [Hnd [Hnames Hstats]].
  fold items in Hnames, Hstats.
  assert (Hkeys : map name (product_entries orders)
                  = map fst (productStats orders)).
  { unfold product_entries. rewrite map_map. now apply map_ext. }
  split; [apply firstn_le_length|].
  split; [exact Htop|].
  exists (skipn 10 sorted). rewrite (firstn_skipn 10 sorted).
  split; [|split; [|split; [|split]]].
  - apply (Permutation_NoDup (Permutation_map name Hperm)).
    now rewrite Hkeys.
  - intros n. rewrite <- Hnames, <- Hkeys.
    split; apply Permutation_in; [symmetry|];
      now apply Permutation_map.
  - intros g Hg. apply (Permutation_in _ (Permutation_sym Hperm)) in Hg.
    unfold product_entries in Hg. apply in_map_iff in Hg.
    destruct Hg as [[k st] [<- Hin]]. simpl. now apply Hstats.
  - intros e t He Ht. now apply (Hcross t e).
  - intros Hne.
    destruct (Nat.le_gt_cases (List.length sorted) 10) as [Hle|Hgt].
    + exfalso. apply Hne. now apply skipn_all2.
    + rewrite length_firstn. lia.
Qed.

End ReportGenerator.

(** ** src/components/dashboard/BusinessDashboard.tsx: [loadDashboardData] *)

Module BusinessDashboard.

Import JS.

(** A [Date] in local time, as its calendar fields; the time zone offset
    is taken to be constant, so that instants compare as their fields
    do, most significant first. *)
Record Date := mkDate {
  getFullYear : Z;
  getMonth : Z;
  getDate : Z;
  ms_of_day : Z
}.

(** [setDate(1)]: only the day of the month changes. *)
Definition setDate (d : Date) (day : Z) : Date :=
  mkDate (getFullYear d) (getMonth d) day (ms_of_day d).

(** [a >= b] on dates. *)
Definition Date_ge (a b : Date) : bool :=
  match (getFullYear a ?= getFullYear b)%Z with
  | Gt => true
  | Lt => false
  | Eq =>
      match (getMonth a ?= getMonth b)%Z with
      | Gt => true
      | Lt => false
      | Eq =>
          match (getDate a ?= getDate b)%Z with
          | Gt => true
          | Lt => false
          | Eq => (ms_of_day b <=? ms_of_day a)%Z
          end
      end
  end.

Record cliente := mkCliente {
  nombre : string;
  comercial_id : string
}.

(** A row of [pedidos] with its client joined ([clientes!inner]). *)
Record pedido := mkPedido {
  id : string;
  fecha_pedido : Date;
  total : Q;
  created_at : Z;
  clientes : cliente
}.

(** The statistics derived from the orders; [totalClientes], the length
    of the separate clients query, is left out. *)
Record DashboardStats := mkStats {
  pedidosMes : nat;
  ventasTotal : Q;
  clienteMasActivo : string
}.

(** [.order('created_at', { ascending: false })]: newest first, rows
    with equal keys in table order. *)
Fixpoint insert_desc (p : pedido) (l : list pedido) : list pedido :=
  match l with
  | [] => [p]
  | q :: rest =>
      if (created_at p <? created_at q)%Z then q :: insert_desc p rest
      else p :: q :: rest
  end.

Fixpoint order_created_at_desc (l : list pedido) : list pedido :=
  match l with
  | [] => []
  | p :: rest => insert_desc p (order_created_at_desc rest)
  end.

(** The orders query: the rows whose client belongs to the user, newest
    first, [.limit(10)]. *)
Definition select_pedidos (user_id : string) (table : list pedido) : list pedido :=
  firstn 10
    (order_created_at_desc
       (filter (fun p => String.eqb (comercial_id (clientes p)) user_id) table)).

(** The object [clientePedidos] and
    [clientePedidos[k] = (clientePedidos[k] || 0) + 1]; names are taken
    not to be array indices, so [Object.entries] lists them as inserted. *)
Fixpoint increment (k : string) (m : list (string * Z)) : list (string * Z) :=
  match m with
  | [] => [(k, 1%Z)]
  | (k', n) :: rest =>
      if String.eqb k' k then (k', (n + 1)%Z) :: rest
      else (k', n) :: increment k rest
  end.

Definition count_cliente (m : list (string * Z)) (p : pedido) : list (string * Z) :=
  let clienteNombre := nombre (clientes p) in
  if String.eqb clienteNombre "" then m else increment clienteNombre m.

(** The statistics computed from [pedidosData] at the instant [now]. *)
Definition calculate_stats (now : Date) (pedidosData : list pedido)
    : DashboardStats :=
  let inicioMes := setDate now 1 in
  let pedidosMes :=
    List.length
      (filter (fun p => Date_ge (fecha_pedido p) inicioMes) pedidosData) in
  let ventasTotal := fold_left (fun sum p => sum + total p) pedidosData 0 in
  let clientePedidos := fold_left count_cliente pedidosData [] in
  let clienteMasActivo :=
    match sort (fun a b => inject_Z (snd b - snd a)) clientePedidos with
    | (k, _) :: _ => k
    | [] => "Sin datos"
    end in
  mkStats pedidosMes ventasTotal clienteMasActivo.

Definition loadDashboardData (now : Date) (user_id : string)
    (table : list pedido) : DashboardStats :=
  calculate_stats now (select_pedidos user_id table).

(** *** What the dashboard's labels and the claim ask for *)

Definition orders_of_user (user_id : string) (table : list pedido) : list pedido :=
  filter (fun p => String.eqb (comercial_id (clientes p)) user_id) table.

Definition total_sales (user_id : string) (table : list pedido) : Q :=
  fold_right (fun p acc => total p + acc) 0 (orders_of_user user_id table).

Definition first_day_of_month (now : Date) : Date :=
  mkDate (getFullYear now) (getMonth now) 1 0.

Definition orders_this_month (now : Date) (user_id : string)
    (table : list pedido) : nat :=
  List.length
    (filter (fun p => Date_ge (fecha_pedido p) (first_day_of_month now))
            (orders_of_user user_id table)).

Definition orders_of_client (n : string) (user_id : string)
    (table : list pedido) : nat :=
  List.length
    (filter (fun p => String.eqb (nombre (clientes p)) n)
            (orders_of_user user_id table)).

(** *** Eleven orders of one commercial user *)

Definition ana := mkCliente "Ana" "u1".
Definition bruno := mkCliente "Bruno" "u1".

Definition day (d : Z) : Date := mkDate 2025 7 d 43200000.

Definition eleven_orders : list pedido :=
  [mkPedido "o01" (day 2) 1 1 ana;   mkPedido "o02" (day 2) 1 2 ana;
   mkPedido "o03" (day 3) 1 3 ana;   mkPedido "o04" (day 3) 1 4 ana;
   mkPedido "o05" (day 4) 1 5 ana;   mkPedido "o06" (day 4) 1 6 ana;
   mkPedido "o07" (day 5) 1 7 bruno; mkPedido "o08" (day 5) 1 8 bruno;
   mkPedido "o09" (day 6) 1 9 bruno; mkPedido "o10" (day 6) 1 10 bruno;
   mkPedido "o11" (day 7) 1 11 bruno].

Definition noon_aug_20 : Date := mkDate 2025 7 20 43200000.

(** The statistics only ever see the ten rows the query returns. *)
Lemma select_pedidos_at_most_ten (user_id : string) (table : list pedido) :
  (List.length (select_pedidos user_id table) <= 10)%nat.
Proof.
  unfold select_pedidos. apply firstn_le_length.
Qed.

Lemma ventasTotal_of_fetched (now : Date) (pedidosData : list pedido) :
  ventasTotal (calculate_stats now pedidosData)
  == fold_right (fun p acc => total p + acc) 0 pedidosData.
Proof.
  simpl.
  assert (H : forall acc,
             fold_left (fun sum p => sum + total p) pedidosData acc
             == acc + fold_right (fun p acc => total p + acc) 0 pedidosData).
  { induction pedidosData as [|p ps IH]; intros acc; simpl; [ring|].
    rewrite IH. ring. }
  rewrite H. ring.
Qed.

(** C5, evaluated on eleven orders of one user's two clients, all dated
    in the current month: the dashboard reports total sales of 10 where
    the orders add up to 11, ten orders this month where there are
    eleven, and names Bruno (5 orders) as top client where Ana has 6. *)
Theorem dashboard_stats_miss_orders_beyond_ten :
  let s := loadDashboardData noon_aug_20 "u1" eleven_orders in
  ventasTotal s == 10
  /\ total_sales "u1" eleven_orders == 11
  /\ pedidosMes s = 10%nat
  /\ orders_this_month noon_aug_20 "u1" eleven_orders = 11%nat
  /\ clienteMasActivo s = "Bruno"
  /\ orders_of_client "Bruno" "u1" eleven_orders = 5%nat
  /\ orders_of_client "Ana" "u1" eleven_orders = 6%nat.
Proof.
  vm_compute. repeat split.
Qed.

(** The month's threshold keeps the time of day of [now]: an order of
    the first of the month, placed earlier in the day than the dashboard
    is opened, is not counted. *)
Example first_of_month_morning_not_counted :
  pedidosMes
    (loadDashboardData noon_aug_20 "u1"
       [mkPedido "o1" (mkDate 2025 7 1 28800000) 1 1 ana]) = 0%nat
  /\ orders_this_month noon_aug_20 "u1"
       [mkPedido "o1" (mkDate 2025 7 1 28800000) 1 1 ana] = 1%nat.
Proof. split; reflexivity. Qed.

End BusinessDashboard.

(** ** src/hooks/useOrderOperations.ts: the order-operations hook *)

Module UseOrderOperations.

(** Values exchanged with the backend client. *)
#[warnings="-register-all"]
Inductive Json :=
| JNull
| JUndefined
| JBool (b : bool)
| JNumber (q : Q)
| JString (s : string)
| JArray (elements : list Json)
| JObject (properties : list (string * Json)).

(** JavaScript truthiness, for [data || []]. *)
Definition truthy (v : Json) : bool :=
  match v with
  | JNull | JUndefined => false
  | JBool b => b
  | JNumber q => negb (Qeq_bool q 0)
  | JString s => negb (String.eqb s "")
  | JArray _ | JObject _ => true
  end.

Definition optional (s : option string) : Json :=
  match s with
  | Some x => JString x
  | None => JUndefined
  end.

(** A request built with the client: [.from(table).update(values).eq('id',
    id)] or [.rpc(fn, args)]. *)
Inductive Request :=
| Update (table : string) (values : list (string * Json)) (id : string)
| Rpc (fn : string) (args : list (string * Json)).

Record Error := mkError { message : string }.

(** What awaiting a request gives: the promise resolves to
    [{ data, error }], [error] being null on success, or it rejects. *)
Inductive Response :=
| Resolved (data : Json) (error : option Error)
| Rejected (reason : Error).

Definition succeeded (r : Response) : bool :=
  match r with
  | Resolved _ None => true
  | _ => false
  end.

Record Toast := mkToast {
  title : string;
  description : string;
  variant : option string
}.

Inductive Completion (A : Type) :=
| Return (a : A)
| Throw (e : Error).

Arguments Return {A} a.
Arguments Throw {A} e.

(** A backend to run the hook on: it records the updates it applies and
    refuses every update of the row [row]. *)

Definition refuses (row : string) (r : Request) (applied : list Request)
    : Response * list Request :=
  match r with
  | Update _ _ id =>
      if String.eqb id row
      then (Resolved JNull (Some (mkError "permission denied")), applied)
      else (Resolved JNull None, applied ++ [r])
  | Rpc _ _ => (Resolved (JArray []) None, applied)
  end.

Section Hook.

(** The backend is any state machine answering requests; [now] is what
    [new Date().toISOString()] yields during the call and
    [toLocaleDateString] the rendering of a date string. *)
Variable Backend : Type.
Variable serve : Request -> Backend -> Response * Backend.
Variable now : string.
Variable toLocaleDateString : string -> string.

(** The state a call runs in: the backend, the requests sent so far with
    their answers, the hook's [loading] flag and the toasts shown. *)
Record World := mkWorld {
  backend : Backend;
  sent : list (Request * Response);
  loading : bool;
  toasts : list Toast
}.

Definition Async (A : Type) : Type := World -> Completion A * World.

Definition ret {A : Type} (a : A) : Async A := fun w => (Return a, w).

Definition throw {A : Type} (e : Error) : Async A := fun w => (Throw e, w).

Definition bind {A B : Type} (m : Async A) (k : A -> Async B) : Async B :=
  fun w =>
    match m w with
    | (Return a, w') => k a w'
    | (Throw e, w') => (Throw e, w')
    end.

Notation "x <- m ;; k" := (bind m (fun x => k))
  (at level 61, m at next level, right associativity).
Notation "m ;;; k" := (bind m (fun _ => k))
  (at level 61, right associativity).

(** [try { body } catch (error) { handler } finally { finalizer }]. *)
Definition try_catch_finally {A : Type} (body : Async A)
    (handler : Error -> Async A) (finalizer : Async unit) : Async A :=
  fun w =>
    let (c, w1) :=
      match body w with
      | (Return a, w1) => (Return a, w1)
      | (Throw e, w1) => handler e w1
      end in
    match finalizer w1 with
    | (Return _, w2) => (c, w2)
    | (Throw e, w2) => (Throw e, w2)
    end.

Definition setLoading (b : bool) : Async unit :=
  fun w => (Return tt, mkWorld (backend w) (sent w) b (toasts w)).

Definition toast (t : Toast) : Async unit :=
  fun w => (Return tt, mkWorld (backend w) (sent w) (loading w) (toasts w ++ [t])).

(** [await request]: the request is sent and answered; a rejection is
    thrown at the [await]. *)
Definition await (r : Request) : Async (Json * option Error) :=
  fun w =>
    let (resp, b') := serve r (backend w) in
    let w' := mkWorld b' (sent w ++ [(r, resp)]) (loading w) (toasts w) in
    match resp with
    | Resolved data error => (Return (data, error), w')
    | Rejected reason => (Throw reason, w')
    end.

(** [if (error) throw error]. *)
Definition throw_if (error : option Error) : Async unit :=
  match error with
  | Some e => throw e
  | None => ret tt
  end.

(** [selectedItems.map(async ...)] starts every callback, so every
    request is sent whatever the others answer; requests are answered in
    the order they were sent.  [Promise.all] then rejects with the first
    rejection, if any. *)
Fixpoint start_all (callbacks : list (Async unit)) : Async (list (Completion unit)) :=
  match callbacks with
  | [] => ret []
  | cb :: rest =>
      fun w =>
        let (c, w1) := cb w in
        match start_all rest w1 with
        | (Return cs, w2) => (Return (c :: cs), w2)
        | (Throw e, w2) => (Throw e, w2)
        end
  end.

Fixpoint first_rejection (cs : list (Completion unit)) : option Error :=
  match cs with
  | [] => None
  | Throw e :: _ => Some e
  | Return _ :: rest => first_rejection rest
  end.

Definition Promise_all (promises : list (Completion unit)) : Async unit :=
  throw_if (first_rejection promises).

Record SelectedItem := mkSelected {
  itemId : string;
  confirmed : bool;
  notes : option string
}.

Definition error_toast (ttl : string) (e : Error) : Toast :=
  mkToast ttl (message e) (Some "destructive").

Definition item_update (item : SelectedItem) : Request :=
  Update "pedido_items"
    [("estado", JString (if confirmed item then "confirmado" else "no_confirmado"));
     ("notas_item", optional (notes item));
     ("fecha_confirmacion", if confirmed item then JString now else JNull)]
    (itemId item).

Definition order_notes_update (pedidoId : string)
    (selectedItems : list SelectedItem) (operationalNotes : option string)
    : Request :=
  Update "pedidos"
    [("notas_operativas", optional operationalNotes);
     ("items_confirmados",
      JObject (map (fun item =>
                      (itemId item,
                       JObject [("confirmed", JBool (confirmed item));
                                ("notes", optional (notes item))]))
                   selectedItems))]
    pedidoId.

(** 1. Confirm partial order with selected items. *)
Definition confirmPartialOrder (pedidoId : string)
    (selectedItems : list SelectedItem) (operationalNotes : option string)
    : Async bool :=
  setLoading true ;;;
  try_catch_finally
    (updatePromises <-
       start_all
         (map (fun item =>
                 r <- await (item_update item) ;;
                 throw_if (snd r))
              selectedItems) ;;
     Promise_all updatePromises ;;;
     r <- await (order_notes_update pedidoId selectedItems operationalNotes) ;;
     throw_if (snd r) ;;;
     toast (mkToast "Pedido confirmado parcialmente"
                    "Los items seleccionados han sido procesados" None) ;;;
     ret true)
    (fun error => toast (error_toast "Error" error) ;;; ret false)
    (setLoading false).

Definition item_status_update (itemId : string) (newStatus : string)
    (notes : option string) : Request :=
  Update "pedido_items"
    [("estado", JString newStatus);
     ("notas_item", optional notes);
     ("fecha_confirmacion",
      if String.eqb newStatus "confirmado" then JString now else JNull)]
    itemId.

(** 2. Update individual item status. *)
Definition updateItemStatus (itemId : string) (newStatus : string)
    (notes : option string) : Async bool :=
  setLoading true ;;;
  try_catch_finally
    (r <- await (item_status_update itemId newStatus notes) ;;
     throw_if (snd r) ;;;
     toast (mkToast "Estado actualizado"
                    ("Item marcado como " ++ newStatus) None) ;;;
     ret true)
    (fun error => toast (error_toast "Error" error) ;;; ret false)
    (setLoading false).

Definition stock_rpc (productIds : list string) : Request :=
  Rpc "check_stock_availability"
      [("product_ids", JArray (map JString productIds))].

(** 3. Check stock availability. *)
Definition checkStockAvailability (productIds : list string) : Async Json :=
  setLoading true ;;;
  try_catch_finally
    (r <- await (stock_rpc productIds) ;;
     throw_if (snd r) ;;;
     ret (if truthy (fst r) then fst r else JArray []))
    (fun error =>
       toast (error_toast "Error verificando stock" error) ;;; ret (JArray []))
    (setLoading false).

Definition delivery_update (pedidoId : string) (deliveryDate : string) : Request :=
  Update "pedidos"
    [("fecha_entrega_estimada", JString deliveryDate);
     ("estado", JString "enviado")]
    pedidoId.

(** 4. Schedule delivery. *)
Definition scheduleDelivery (pedidoId : string) (deliveryDate : string)
    : Async bool :=
  setLoading true ;;;
  try_catch_finally
    (r <- await (delivery_update pedidoId deliveryDate) ;;
     throw_if (snd r) ;;;
     toast (mkToast "Entrega programada"
                    ("Pedido programado para " ++ toLocaleDateString deliveryDate)
                    None) ;;;
     ret true)
    (fun error => toast (error_toast "Error" error) ;;; ret false)
    (setLoading false).

Definition order_status_update (pedidoId : string) (newStatus : string)
    (notes : option string) : Request :=
  Update "pedidos"
    [("estado", JString newStatus); ("notas_operativas", optional notes)]
    pedidoId.

(** 5. Update order status. *)
Definition updateOrderStatus (pedidoId : string) (newStatus : string)
    (notes : option string) : Async bool :=
  setLoading true ;;;
  try_catch_finally
    (r <- await (order_status_update pedidoId newStatus notes) ;;
     throw_if (snd r) ;;;
     toast (mkToast "Estado actualizado"
                    ("Pedido marcado como " ++ newStatus) None) ;;;
     ret true)
    (fun error => toast (error_toast "Error" error) ;;; ret false)
    (setLoading false).

(** *** What a call does, request by request *)

(** The completion of an awaited request followed by
    [if (error) throw error]. *)
Definition completion_of (resp : Response) : Completion unit :=
  match resp with
  | Resolved _ None => Return tt
  | Resolved _ (Some e) => Throw e
  | Rejected e => Throw e
  end.

Definition outcome_toast (ok : Toast) (error_title : string) (resp : Response)
    : Toast :=
  match completion_of resp with
  | Return _ => ok
  | Throw e => error_toast error_title e
  end.

(** The backend answering a list of requests in order. *)
Fixpoint serve_all (rs : list Request) (b : Backend)
    : list (Request * Response) * Backend :=
  match rs with
  | [] => ([], b)
  | r :: rest =>
      let (resp, b1) := serve r b in
      let (answers, b2) := serve_all rest b1 in
      ((r, resp) :: answers, b2)
  end.

Definition all_succeeded (answers : list (Request * Response)) : bool :=
  forallb (fun a => succeeded (snd a)) answers.

(** A call of [op] in the state [w] returns normally; the requests it
    sends are the first ones of [plan], each sent once and in order, and
    all of [plan] when none fails; the value returned is [success] of the
    answers when no request fails and [failure] otherwise. *)
Definition settles {A : Type} (op : Async A) (plan : list Request)
    (success : list (Request * Response) -> A) (failure : A) (w : World)
    : Prop :=
  exists (w' : World) (answers : list (Request * Response)),
    op w = (Return (if all_succeeded answers then success answers else failure),
            w')
    /\ sent w' = sent w ++ answers
    /\ (exists n, map fst answers = firstn n plan)
    /\ (all_succeeded answers = true -> map fst answers = plan)
    /\ loading w' = false.

(** [data || []] of the one answer to the stock request. *)
Definition stock_data (answers : list (Request * Response)) : Json :=
  match answers with
  | [(_, Resolved data _)] => if truthy data then data else JArray []
  | _ => JArray []
  end.

(** *** Facts about the calls *)

Lemma succeeded_completion (resp : Response) :
  succeeded resp = true <-> completion_of resp = Return tt.
Proof.
  destruct resp as [data [e|]|e]; simpl; split; congruence.
Qed.

Lemma first_rejection_none (answers : list (Request * Response)) :
  first_rejection (map (fun a => completion_of (snd a)) answers) = None
  <-> forallb (fun a => succeeded (snd a)) answers = true.
Proof.
  induction answers as [|[r resp] rest IH]; simpl; [tauto|].
  destruct resp as [data [e|]|e]; simpl; try (split; discriminate).
  exact IH.
Qed.

Lemma serve_all_requests (rs : list Request) (b : Backend) :
  map fst (fst (serve_all rs b)) = rs.
Proof.
  revert b. induction rs as [|r rest IH]; intros b; simpl; [reflexivity|].
  destruct (serve r b) as [resp b1]. specialize (IH b1).
  destruct (serve_all rest b1) as [answers b2]. simpl in *. now rewrite IH.
Qed.

Lemma item_callback_run (item : SelectedItem) (w : World) :
  (r <- await (item_update item) ;; throw_if (snd r)) w
  = (completion_of (fst (serve (item_update item) (backend w))),
     mkWorld (snd (serve (item_update item) (backend w)))
             (sent w ++ [(item_update item,
                          fst (serve (item_update item) (backend w)))])
             (loading w) (toasts w)).
Proof.
  unfold bind, await.
  destruct (serve (item_update item) (backend w)) as [resp b'].
  destruct resp as [data [e|]|e]; reflexivity.
Qed.

Lemma start_all_run (items : list SelectedItem) :
  forall w,
    start_all
      (map (fun item => r <- await (item_update item) ;; throw_if (snd r))
           items) w
    = (Return (map (fun a => completion_of (snd a))
                   (fst (serve_all (map item_update items) (backend w)))),
       mkWorld (snd (serve_all (map item_update items) (backend w)))
               (sent w ++ fst (serve_all (map item_update items) (backend w)))
               (loading w) (toasts w)).
Proof.
  induction items as [|item rest IH]; intros w; simpl.
  - unfold ret. rewrite app_nil_r. now destruct w.
  - rewrite item_callback_run, IH. simpl.
    destruct (serve (item_update item) (backend w)) as [resp b1]. simpl.
    destruct (serve_all (map item_update rest) b1) as [answers b2]. simpl.
    now rewrite <- app_assoc.
Qed.

(** One request, one answer: the shape of operations 2 to 5. *)
Lemma single_request_run {A : Type} (r : Request) (ok : Toast)
    (error_title : string) (success : Json -> A) (failure : A) (w : World) :
  (setLoading true ;;;
   try_catch_finally
     (x <- await r ;; throw_if (snd x) ;;; toast ok ;;; ret (success (fst x)))
     (fun error => toast (error_toast error_title error) ;;; ret failure)
     (setLoading false)) w
  = (Return (match fst (serve r (backend w)) with
             | Resolved data None => success data
             | _ => failure
             end),
     mkWorld (snd (serve r (backend w)))
             (sent w ++ [(r, fst (serve r (backend w)))])
             false
             (toasts w ++ [outcome_toast ok error_title
                             (fst (serve r (backend w)))])).
Proof.
  unfold bind, try_catch_finally, setLoading, await, toast, ret; simpl.
  destruct (serve r (backend w)) as [resp b'].
  destruct resp as [data [e|]|e]; reflexivity.
Qed.

Lemma confirmPartialOrder_run (pedidoId : string)
    (selectedItems : list SelectedItem) (operationalNotes : option string)
    (w : World) :
  let answers := fst (serve_all (map item_update selectedItems) (backend w)) in
  let b1 := snd (serve_all (map item_update selectedItems) (backend w)) in
  let order_request :=
    order_notes_update pedidoId selectedItems operationalNotes in
  confirmPartialOrder pedidoId selectedItems operationalNotes w
  = match first_rejection (map (fun a => completion_of (snd a)) answers) with
    | Some e =>
        (Return false,
         mkWorld b1 (sent w ++ answers) false
                 (toasts w ++ [error_toast "Error" e]))
    | None =>
        (Return (succeeded (fst (serve order_request b1))),
         mkWorld (snd (serve order_request b1))
                 ((sent w ++ answers)
                  ++ [(order_request, fst (serve order_request b1))])
                 false
                 (toasts w
                  ++ [outcome_toast
                        (mkToast "Pedido confirmado parcialmente"
                                 "Los items seleccionados han sido procesados"
                                 None)
                        "Error" (fst (serve order_request b1))]))
    end.
Proof.
  cbv zeta. unfold confirmPartialOrder.
  generalize (order_notes_update pedidoId selectedItems operationalNotes).
  intros order_request.
  unfold bind at 1. unfold setLoading at 1.
  unfold try_catch_finally. unfold bind at 1.
  rewrite start_all_run. cbn [backend sent loading toasts].
  destruct (serve_all (map item_update selectedItems) (backend w))
    as [answers b1].
  cbn [fst snd].
  unfold Promise_all, bind, throw_if, throw, ret, await, toast, setLoading.
  cbn.
  destruct (first_rejection (map (fun a => completion_of (snd a)) answers))
    as [e|]; [reflexivity|].
  cbn [backend sent loading toasts].
  destruct (serve order_request b1) as [resp b2].
  destruct resp as [data [e|]|e]; reflexivity.
Qed.

Lemma settles_single_bool (op : Async bool) (r : Request) (ok : Toast)
    (error_title : string) (w : World) :
  op = (setLoading true ;;;
        try_catch_finally
          (x <- await r ;; throw_if (snd x) ;;; toast ok ;;; ret true)
          (fun error => toast (error_toast error_title error) ;;; ret false)
          (setLoading false)) ->
  settles op [r] (fun _ => true) false w.
Proof.
  intros ->. unfold settles.
  pose proof (single_request_run r ok error_title (fun _ => true) false w)
    as Hrun.
  cbv beta in Hrun. rewrite Hrun. clear Hrun.
  eexists. exists [(r, fst (serve r (backend w)))].
  split.
  { unfold all_succeeded. simpl. f_equal. f_equal.
    now destruct (fst (serve r (backend w))) as [data [e|]|e]. }
  split; [reflexivity|split; [now exists 1%nat|split; reflexivity]].
Qed.

Lemma settles_checkStockAvailability (productIds : list string) (w : World) :
  settles (checkStockAvailability productIds) [stock_rpc productIds]
          stock_data (JArray []) w.
Proof.
  unfold settles, checkStockAvailability.
  generalize (stock_rpc productIds). intros r.
  exists (mkWorld (snd (serve r (backend w)))
                  (sent w ++ [(r, fst (serve r (backend w)))])
                  false
                  (toasts w
                   ++ match completion_of (fst (serve r (backend w))) with
                      | Return _ => []
                      | Throw e => [error_toast "Error verificando stock" e]
                      end)).
  exists [(r, fst (serve r (backend w)))].
  split; [|split; [reflexivity|split; [now exists 1%nat|split; reflexivity]]].
  unfold bind, try_catch_finally, setLoading, await, toast, ret, throw_if,
    throw, all_succeeded; simpl.
  destruct (serve r (backend w)) as [resp b'].
  destruct resp as [data [e|]|e]; simpl; try reflexivity.
  now rewrite app_nil_r.
Qed.

Lemma settles_confirmPartialOrder (pedidoId : string)
    (selectedItems : list SelectedItem) (operationalNotes : option string)
    (w : World) :
  settles (confirmPartialOrder pedidoId selectedItems operationalNotes)
          (map item_update selectedItems
           ++ [order_notes_update pedidoId selectedItems operationalNotes])
          (fun _ => true) false w.
Proof.
  unfold settles. rewrite confirmPartialOrder_run.
  pose proof (serve_all_requests (map item_update selectedItems) (backend w))
    as Hreq.
  pose proof (first_rejection_none
                (fst (serve_all (map item_update selectedItems) (backend w))))
    as Hnone.
  destruct (serve_all (map item_update selectedItems) (backend w))
    as [answers b1].
  cbn [fst snd] in *.
  generalize dependent (order_notes_update pedidoId selectedItems operationalNotes).
  intros order_request.
  destruct (first_rejection (map (fun a => completion_of (snd a)) answers))
    as [e|].
  - assert (Hfail : all_succeeded answers = false).
    { unfold all_succeeded.
      destruct (forallb (fun a => succeeded (snd a)) answers); [|reflexivity].
      destruct Hnone as [_ Hnone]. discriminate (Hnone eq_refl). }
    eexists. exists answers. rewrite Hfail.
    split; [reflexivity|]. split; [reflexivity|]. split.
    + exists (List.length (map item_update selectedItems)).
      rewrite Hreq. now rewrite firstn_app, firstn_all, Nat.sub_diag, app_nil_r.
    + split; [discriminate|reflexivity].
  - assert (Hok : all_succeeded answers = true) by now apply Hnone.
    eexists. exists (answers ++ [(order_request, fst (serve order_request b1))]).
    assert (Hall : all_succeeded
                     (answers ++ [(order_request, fst (serve order_request b1))])
                   = succeeded (fst (serve order_request b1))).
    { unfold all_succeeded in *. rewrite forallb_app, Hok. simpl.
      now rewrite andb_true_r. }
    rewrite Hall.
    split; [now destruct (succeeded (fst (serve order_request b1)))|].
    split; [now rewrite app_assoc|].
    assert (Hplan : map fst (answers
                             ++ [(order_request, fst (serve order_request b1))])
                    = map item_update selectedItems ++ [order_request])
      by (rewrite map_app, Hreq; reflexivity).
    split; [|split; [intros _; exact Hplan|reflexivity]].
    exists (List.length (map item_update selectedItems ++ [order_request])).
    now rewrite Hplan, firstn_all.
Qed.

(** C6. Every operation of the hook returns normally whatever the
    backend answers: an error answer or a rejected request gives the
    failure value ([false], or the empty list for the stock check) and
    answers without error give the success value ([true], or the data
    for the stock check).  Each planned request is sent at most once: no
    request is sent again after a failure. *)
Theorem operations_catch_errors_without_retry :
  forall w : World,
    (forall pedidoId selectedItems operationalNotes,
        settles (confirmPartialOrder pedidoId selectedItems operationalNotes)
                (map item_update selectedItems
                 ++ [order_notes_update pedidoId selectedItems operationalNotes])
                (fun _ => true) false w)
    /\ (forall itemId newStatus notes,
          settles (updateItemStatus itemId newStatus notes)
                  [item_status_update itemId newStatus notes]
                  (fun _ => true) false w)
    /\ (forall productIds,
          settles (checkStockAvailability productIds) [stock_rpc productIds]
                  stock_data (JArray []) w)
    /\ (forall pedidoId deliveryDate,
          settles (scheduleDelivery pedidoId deliveryDate)
                  [delivery_update pedidoId deliveryDate]
                  (fun _ => true) false w)
    /\ (forall pedidoId newStatus notes,
          settles (updateOrderStatus pedidoId newStatus notes)
                  [order_status_update pedidoId newStatus notes]
                  (fun _ => true) false w).
Proof.
  intros w. split; [|split; [|split; [|split]]].
  - intros. apply settles_confirmPartialOrder.
  - intros. eapply settles_single_bool. reflexivity.
  - intros. apply settles_checkStockAvailability.
  - intros. eapply settles_single_bool. reflexivity.
  - intros. eapply settles_single_bool. reflexivity.
Qed.

(** C7. [confirmPartialOrder] sends one update per selected item, each
    to that item's row and with status 'confirmado' or 'no_confirmado'
    after its flag, and every one of them is sent whatever the others
    answer.  When one of them fails the call returns [false] having
    sent nothing else: no write of the order's notes and no request that
    would undo an item update, so the backend stays as the item updates
    left it. *)
Theorem confirmPartialOrder_partial_failure :
  forall (pedidoId : string) (selectedItems : list SelectedItem)
         (operationalNotes : option string) (w : World),
    let item_answers :=
      fst (serve_all (map item_update selectedItems) (backend w)) in
    let result :=
      confirmPartialOrder pedidoId selectedItems operationalNotes w in
    Forall2 (fun item a =>
               fst a
               = Update "pedido_items"
                   [("estado",
                     JString (if confirmed item then "confirmado"
                              else "no_confirmado"));
                    ("notas_item", optional (notes item));
                    ("fecha_confirmacion",
                     if confirmed item then JString now else JNull)]
                   (itemId item))
            selectedItems item_answers
    /\ (exists rest, sent (snd result) = sent w ++ item_answers ++ rest)
    /\ (all_succeeded item_answers = false ->
        fst result = Return false
        /\ sent (snd result) = sent w ++ item_answers
        /\ backend (snd result)
           = snd (serve_all (map item_update selectedItems) (backend w))).
Proof.
  intros pedidoId selectedItems operationalNotes w item_answers result.
  subst result. rewrite confirmPartialOrder_run. fold item_answers.
  pose proof (first_rejection_none item_answers) as Hnone.
  split; [|split].
  - pose proof (serve_all_requests (map item_update selectedItems) (backend w))
      as Hreq.
    fold item_answers in Hreq. clearbody item_answers. clear Hnone.
    revert item_answers Hreq.
    induction selectedItems as [|item rest IH]; intros answers Hreq;
      destruct answers as [|a answers]; try discriminate; constructor.
    + simpl in Hreq. now inversion Hreq.
    + apply IH. simpl in Hreq. now inversion Hreq.
  - destruct (first_rejection (map (fun a => completion_of (snd a)) item_answers)).
    + exists []. simpl. now rewrite app_nil_r.
    + eexists. simpl. rewrite <- app_assoc. reflexivity.
  - intros Hfail.
    destruct (first_rejection (map (fun a => completion_of (snd a)) item_answers)).
    + repeat split.
    + destruct Hnone as [Hnone _]. unfold all_succeeded in Hfail.
      rewrite (Hnone eq_refl) in Hfail. discriminate.
Qed.

End Hook.

Example confirm_three_items_one_refused :
  let selected := [mkSelected "a" true None; mkSelected "b" false None;
                   mkSelected "c" true None] in
  let result :=
    confirmPartialOrder (list Request) (refuses "b") "2025-08-20T10:00:00Z"
      "p1" selected (Some "nota") (mkWorld (list Request) [] [] false []) in
  fst result = Return false
  /\ map fst (sent _ (snd result))
     = map (item_update "2025-08-20T10:00:00Z") selected
  /\ backend _ (snd result)
     = [item_update "2025-08-20T10:00:00Z" (mkSelected "a" true None);
        item_update "2025-08-20T10:00:00Z" (mkSelected "c" true None)].
Proof. repeat split. Qed.

End UseOrderOperations.

(** ** The order-status trigger under arbitrary item updates *)

Module WorkflowInvariants.

Import Migration.



Lemma no_row_fires (now : timestamptz) (cond : PedidoItems.row -> bool)
    (set : PedidoItems.row -> PedidoItems.row) (db : database) :
  (forall r, In r (pedido_items db) -> cond r = true ->
             is_distinct_from (PedidoItems.estado r)
                              (PedidoItems.estado (set r)) = false) ->
  forall o, existsb (fires_for o) (updated_rows cond set db) = false.
Proof.
  intros Hsame o. unfold updated_rows.
  induction (pedido_items db) as [|r rest IH]; simpl; [reflexivity|].
  destruct (cond r) eqn:E; simpl.
  - unfold fires_for at 1. simpl.
    rewrite (Hsame r (or_introl eq_refl) E). simpl.
    apply IH. intros r' Hin. apply Hsame. now right.
  - apply IH. intros r' Hin. apply Hsame. now right.
Qed.

(** X1. The trigger is gated on a change of status: a statement that
    rewrites items without changing the status of any of them (notes
    only, say, or the status it already has, [NULL] included) leaves
    every order as it was, [updated_at] included. *)
Theorem update_keeping_status_leaves_orders :
  forall (now : timestamptz) (cond : PedidoItems.row -> bool)
         (set : PedidoItems.row -> PedidoItems.row) (db : database),
    (forall r, In r (pedido_items db) -> cond r = true ->
               is_distinct_from (PedidoItems.estado r)
                                (PedidoItems.estado (set r)) = false) ->
    pedidos (update_pedido_items now cond set db) = pedidos db.
Proof.
  intros now cond set db Hsame.
  destruct (update_pedido_items_spec now cond set db) as [_ Hp].
  rewrite Hp. rewrite <- (map_id (pedidos db)) at 2.
  apply map_ext. intros o. now rewrite (no_row_fires now cond set db Hsame).
Qed.

Lemma update_keeping_status_leaves_orders_witness :
  pedidos (update_item_estado 7%Z "b" (Some "confirmado") sample_db)
  = pedidos sample_db.
Proof.
  apply (update_keeping_status_leaves_orders 7%Z
           (fun r => String.eqb (PedidoItems.id r) "b")
           (set_estado (Some "confirmado")) sample_db).
  intros r [<-|[<-|[<-|[]]]]; simpl; intros H; try discriminate; reflexivity.
Defined.

(** X2. The trigger never breaks the orders' check constraint: when
    every order satisfies [pedidos_estado_workflow_check] before a
    statement on the items, every order satisfies it afterwards. *)
Theorem trigger_keeps_check_constraint :
  forall (now : timestamptz) (cond : PedidoItems.row -> bool)
         (set : PedidoItems.row -> PedidoItems.row) (db : database),
    forallb pedidos_estado_workflow_check (pedidos db) = true ->
    forallb pedidos_estado_workflow_check
            (pedidos (update_pedido_items now cond set db)) = true.
Proof.
  intros now cond set db Hok.
  destruct (update_pedido_items_spec now cond set db) as [_ Hp].
  rewrite Hp. rewrite forallb_forall in *. intros o' Hin.
  apply in_map_iff in Hin. destruct Hin as [o [<- Ho]].
  destruct (existsb (fires_for o) (updated_rows cond set db)).
  - unfold recompute_order, pedidos_estado_workflow_check. simpl.
    apply recomputed_estado_passes_check. now apply Hok.
  - now apply Hok.
Qed.

Lemma trigger_keeps_check_constraint_witness :
  forallb pedidos_estado_workflow_check
          (pedidos (update_item_estado 7%Z "a" (Some "no_confirmado") sample_db))
  = true.
Proof.
  exact (trigger_keeps_check_constraint 7%Z
           (fun r => String.eqb (PedidoItems.id r) "a")
           (set_estado (Some "no_confirmado")) sample_db eq_refl).
Defined.


End WorkflowInvariants.

(** ** Schema migrations: status normalisation and generated numbers *)

From Stdlib Require Import NArith DecimalString DecimalN.

Module SchemaMigrations.

Import Migration.

(** [a NOT IN (v1, ..., vn)] in a [CASE WHEN] position: true only for a
    non-null value that equals none of the [vi]. *)
Definition sql_not_in (a : option string) (vals : list string) : bool :=
  match a with
  | Some x => negb (existsb (String.eqb x) vals)
  | None => false
  end.

(** The [CASE] of the statement that precedes the new check constraint:
    [UPDATE public.pedidos SET estado = CASE WHEN estado = 'pendiente'
    THEN 'recibido' WHEN estado NOT IN (...) THEN 'recibido' ELSE estado
    END].  *)
Definition normalised_estado (estado : option string) : option string :=
  if sql_eq estado (Some "pendiente") then Some "recibido"
  else if sql_not_in estado
            ["recibido"; "revision"; "confirmado_parcial"; "preparacion";
             "enviado"; "entregado"; "cancelado"]
  then Some "recibido"
  else estado.

(** The statement has no [WHERE]: it rewrites every row. *)
Definition normalise_pedidos (rows : list Pedidos.row) : list Pedidos.row :=
  map (fun o => Pedidos.mk (Pedidos.id o) (normalised_estado (Pedidos.estado o))
                           (Pedidos.updated_at o))
      rows.

(** [nextval(...)::text]: the decimal digits of the sequence value. *)
Definition text_of (n : N) : string :=
  NilEmpty.string_of_uint (N.to_uint n).

(** The fill characters [lpad] puts in front: [fill] repeated and cut to
    [n] characters; [cur] is what is left of the current repetition. *)
Fixpoint filling (n : nat) (fill cur : string) : string :=
  match n with
  | O => ""
  | S n' =>
      match cur with
      | String c rest => String c (filling n' fill rest)
      | EmptyString =>
          match fill with
          | String c rest => String c (filling n' fill rest)
          | EmptyString => ""
          end
      end
  end.

(** [LPAD(s, len, fill)]: a string of [len] characters or more is cut to
    its first [len] characters; a shorter one is filled on the left. *)
Definition lpad (s : string) (len : nat) (fill : string) : string :=
  if Nat.leb len (String.length s) then substring 0 len s
  else filling (len - String.length s) fill fill ++ s.

(** [prefix || TO_CHAR(NOW(), 'YYYYMMDD') || '-' || LPAD(nextval::text, 4,
    '0')], the value both generators build. *)
Definition numbered (prefix yyyymmdd : string) (nextval : N) : string :=
  prefix ++ yyyymmdd ++ "-" ++ lpad (text_of nextval) 4 "0".

(** [generate_order_number()], the [BEFORE INSERT] trigger function of
    [pedidos], gives [NEW.numero_pedido]. *)
Definition generate_order_number (yyyymmdd : string) (nextval : N) : string :=
  numbered "PED-" yyyymmdd nextval.

(** The column default of [reportes_operativos.numero_reporte]. *)
Definition numero_reporte_default (yyyymmdd : string) (nextval : N) : string :=
  numbered "REP-" yyyymmdd nextval.

(** Reading back a string of decimal digits, for the proofs. *)
Definition digit_value (c : ascii) : N :=
  N.of_nat (nat_of_ascii c - 48).

Fixpoint digits_value (acc : N) (s : string) : N :=
  match s with
  | EmptyString => acc
  | String c rest => digits_value (10 * acc + digit_value c) rest
  end.

Example order_number_sample :
  generate_order_number "20250809" 42 = "PED-20250809-0042"
  /\ generate_order_number "20250809" 12345 = "PED-20250809-1234".
Proof. split; reflexivity. Qed.

Lemma normalised_estado_passes (estado : option string) :
  check_in (normalised_estado estado) pedidos_estado_workflow_check_values
  = true.
Proof.
  unfold normalised_estado.
  destruct (sql_eq estado (Some "pendiente")); [reflexivity|].
  destruct estado as [x|]; [|reflexivity].
  unfold sql_not_in, check_in, pedidos_estado_workflow_check_values.
  destruct (existsb (String.eqb x) _) eqn:E; simpl; [exact E|reflexivity].
Qed.

Lemma normalised_estado_valid (estado : option string) :
  check_in estado pedidos_estado_workflow_check_values = true ->
  normalised_estado estado = estado.
Proof.
  intros Hok. unfold normalised_estado.
  destruct estado as [x|]; [|reflexivity].
  unfold check_in, pedidos_estado_workflow_check_values in Hok.
  unfold sql_not_in. rewrite Hok. simpl.
  unfold sql_eq. destruct (String.eqb_spec x "pendiente") as [->|_];
    [discriminate Hok|reflexivity].
Qed.

(** X4. The normalising [UPDATE] makes the new check constraint
    admissible: afterwards every order satisfies it, whatever the
    statuses were (a [NULL] status stays [NULL], which the constraint
    accepts).  Rows that already satisfied the constraint keep their
    status, so running the statement again changes nothing. *)
Theorem normalise_pedidos_admissible :
  forall rows : list Pedidos.row,
    forallb pedidos_estado_workflow_check (normalise_pedidos rows) = true
    /\ map Pedidos.id (normalise_pedidos rows) = map Pedidos.id rows
    /\ (forall o, In o rows -> pedidos_estado_workflow_check o = true ->
                  In o (normalise_pedidos rows))
    /\ normalise_pedidos (normalise_pedidos rows) = normalise_pedidos rows.
Proof.
  intros rows. split; [|split; [|split]].
  - apply forallb_forall. intros o' Hin. unfold normalise_pedidos in Hin.
    apply in_map_iff in Hin. destruct Hin as [o [<- _]].
    apply normalised_estado_passes.
  - unfold normalise_pedidos. rewrite map_map. reflexivity.
  - intros o Hin Hok. unfold normalise_pedidos. apply in_map_iff.
    exists o. split; [|exact Hin].
    unfold pedidos_estado_workflow_check in Hok.
    rewrite (normalised_estado_valid _ Hok). now destruct o.
  - unfold normalise_pedidos. rewrite map_map. apply map_ext. intros o. simpl.
    now rewrite (normalised_estado_valid _ (normalised_estado_passes _)).
Qed.

Lemma append_cancel_l (p a b : string) : (p ++ a = p ++ b)%string -> a = b.
Proof.
  induction p as [|c p IH]; simpl; intros H; [exact H|].
  inversion H. now apply IH.
Qed.

(** The [count] numbers from [start] on. *)
Fixpoint N_range (start : N) (count : nat) : list N :=
  match count with
  | O => []
  | S c => start :: N_range (N.succ start) c
  end.

Lemma N_range_In (count : nat) :
  forall start n : N,
    (start <= n < start + N.of_nat count)%N -> In n (N_range start count).
Proof.
  induction count as [|c IH]; intros start n H; [lia|].
  simpl. destruct (N.eq_dec start n) as [->|Hne]; [now left|].
  right. apply IH. lia.
Qed.

Definition reads_back (n : N) : bool :=
  N.eqb (digits_value 0 (lpad (text_of n) 4 "0")) n.

Lemma four_digits_read_back :
  forallb reads_back (N_range 0 (N.to_nat 10000)) = true.
Proof. vm_compute. reflexivity. Qed.

Lemma lpad_reads_back (n : N) :
  (n < 10000)%N -> digits_value 0 (lpad (text_of n) 4 "0") = n.
Proof.
  intros Hlt.
  pose proof four_digits_read_back as H. rewrite forallb_forall in H.
  apply N.eqb_eq. apply (H n). apply N_range_In. lia.
Qed.

Definition cut_to_prefix (n : N) : bool :=
  forallb (fun k =>
             String.eqb (lpad (text_of (10 * n + k)) 4 "0")
                        (lpad (text_of n) 4 "0"))
          (N_range 0 10).

Lemma five_digits_cut :
  forallb cut_to_prefix (N_range 1000 (N.to_nat 9000)) = true.
Proof. vm_compute. reflexivity. Qed.

(** X5. Generated order and report numbers.  On one day, two sequence
    values below 10000 never give the same number.  From 10000 on the
    sequence value is cut to its first four digits: a five-digit value
    gets the very number of the four-digit value it starts with, so the
    numbers are no longer distinct. *)
Theorem numbered_distinct_up_to_four_digits :
  forall prefix yyyymmdd : string,
    (forall n m : N,
        (n < 10000)%N -> (m < 10000)%N ->
        numbered prefix yyyymmdd n = numbered prefix yyyymmdd m -> n = m)
    /\ (forall n k : N,
          (1000 <= n < 10000)%N -> (k < 10)%N ->
          numbered prefix yyyymmdd (10 * n + k) = numbered prefix yyyymmdd n).
Proof.
  intros prefix yyyymmdd. split.
  - intros n m Hn Hm Heq. unfold numbered in Heq.
    do 3 apply append_cancel_l in Heq.
    rewrite <- (lpad_reads_back n Hn), <- (lpad_reads_back m Hm).
    now rewrite Heq.
  - intros n k Hn Hk. unfold numbered. do 3 f_equal.
    pose proof five_digits_cut as H. rewrite forallb_forall in H.
    assert (Hin : In n (N_range 1000 (N.to_nat 9000)))
      by (apply N_range_In; lia).
    specialize (H n Hin). unfold cut_to_prefix in H.
    rewrite forallb_forall in H.
    apply String.eqb_eq. apply (H k). apply N_range_In. lia.
Qed.

End SchemaMigrations.

(** ** Status tables of the two order views *)

Module OrderViews.

Import OperationalOrderManager.

(** Case analysis of a string against the literal [k]. *)
Ltac case_key k s :=
  let H := fresh "Hne" in
  destruct (String.eqb_spec k s) as [<-|H].

Ltac not_a_key :=
  repeat match goal with
         | |- context [String.eqb ?s ?k] =>
             destruct (String.eqb_spec s k); [congruence|]
         end.

(** X6. The progress shown for an order is a percentage for every
    status string, and it is 0 exactly for 'cancelado' and for a status
    that the orders' check constraint does not permit (which has no
    entry in the table). *)
Theorem getOrderProgress_range :
  forall estado : string,
    (0 <= getOrderProgress estado <= 100)%Z
    /\ (getOrderProgress estado = 0%Z
        <-> estado = "cancelado"
            \/ Migration.check_in (Some estado)
                 Migration.pedidos_estado_workflow_check_values = false).
Proof.
  intros estado. unfold getOrderProgress, ORDER_STATUS_CONFIG. cbn [get].
  case_key "recibido" estado;
    [cbn; split; [lia|]; split; [discriminate|intros [H|H]; discriminate]|].
  case_key "revision" estado;
    [cbn; split; [lia|]; split; [discriminate|intros [H|H]; discriminate]|].
  case_key "confirmado_parcial" estado;
    [cbn; split; [lia|]; split; [discriminate|intros [H|H]; discriminate]|].
  case_key "preparacion" estado;
    [cbn; split; [lia|]; split; [discriminate|intros [H|H]; discriminate]|].
  case_key "enviado" estado;
    [cbn; split; [lia|]; split; [discriminate|intros [H|H]; discriminate]|].
  case_key "entregado" estado;
    [cbn; split; [lia|]; split; [discriminate|intros [H|H]; discriminate]|].
  case_key "cancelado" estado;
    [cbn; split; [lia|]; split; [now left|reflexivity]|].
  split; [lia|]. split; [|reflexivity]. intros _. right.
  unfold Migration.check_in, Migration.pedidos_estado_workflow_check_values.
  cbn [existsb]. not_a_key. reflexivity.
Qed.

(** *** The order timeline ([OrderTimeline]) *)

Inductive TimelineIcon := Clock | CheckCircle | Package | Truck | Star.

Record TimelineStatus := mkStatus {
  label : string;
  color : string;
  icon : TimelineIcon;
  progress : Z
}.

Definition ORDER_STATUSES : list (string * TimelineStatus) :=
  [("pendiente",
    mkStatus "Pendiente"
      "bg-yellow-100 text-yellow-800 dark:bg-yellow-900 dark:text-yellow-200"
      Clock 0);
   ("confirmado",
    mkStatus "Confirmado"
      "bg-blue-100 text-blue-800 dark:bg-blue-900 dark:text-blue-200"
      CheckCircle 25);
   ("en_proceso",
    mkStatus "En Proceso"
      "bg-orange-100 text-orange-800 dark:bg-orange-900 dark:text-orange-200"
      Package 50);
   ("enviado",
    mkStatus "Enviado"
      "bg-purple-100 text-purple-800 dark:bg-purple-900 dark:text-purple-200"
      Truck 75);
   ("entregado",
    mkStatus "Entregado"
      "bg-green-100 text-green-800 dark:bg-green-900 dark:text-green-200"
      Star 100);
   ("cancelado",
    mkStatus "Cancelado"
      "bg-red-100 text-red-800 dark:bg-red-900 dark:text-red-200"
      Clock 0)].

(** Property access on an object literal: [None] is [undefined]. *)
Fixpoint lookup {V : Type} (table : list (string * V)) (k : string) : option V :=
  match table with
  | [] => None
  | (k', v) :: rest => if String.eqb k' k then Some v else lookup rest k
  end.

(** [statusFlow] of [getNextStatus]; a value [None] is [null]. *)
Definition statusFlow : list (string * option string) :=
  [("pendiente", Some "confirmado");
   ("confirmado", Some "en_proceso");
   ("en_proceso", Some "enviado");
   ("enviado", Some "entregado");
   ("entregado", None);
   ("cancelado", None)].

(** [getNextStatus]: the status to advance to; [None] when the table
    gives [null] or has no such key, the two cases in which the card
    shows no button. *)
Definition getNextStatus (currentStatus : string) : option string :=
  match lookup statusFlow currentStatus with
  | Some next => next
  | None => None
  end.

(** The head of an order's card reads [ORDER_STATUSES[order.estado].icon]:
    [None] stands for the [TypeError] of reading a property of
    [undefined]. *)
Definition card_icon (estado : string) : option TimelineIcon :=
  match lookup ORDER_STATUSES estado with
  | Some status => Some (icon status)
  | None => None
  end.

(** Advancing [n] times, as far as there is a next status. *)
Fixpoint advance (n : nat) (estado : string) : string :=
  match n with
  | O => estado
  | S n' =>
      match getNextStatus estado with
      | Some next => advance n' next
      | None => estado
      end
  end.

Definition permitted (estado : string) : bool :=
  Migration.check_in (Some estado) Migration.pedidos_estado_workflow_check_values.

(** X7. The timeline against the orders' check constraint.  Of the
    statuses the constraint permits, the timeline can draw a card only
    for 'enviado', 'entregado' and 'cancelado'; for the other four it
    fails on the missing table entry.  Every status it offers to advance
    to has a table entry, but only the advances from 'en_proceso' and
    from 'enviado' write a status that the constraint permits. *)
Theorem timeline_statuses_against_constraint :
  (forall estado : string,
      permitted estado = true ->
      (card_icon estado <> None
       <-> estado = "enviado" \/ estado = "entregado" \/ estado = "cancelado"))
  /\ (forall estado next : string,
        getNextStatus estado = Some next ->
        lookup ORDER_STATUSES next <> None
        /\ (permitted next = true
            <-> estado = "en_proceso" \/ estado = "enviado")).
Proof.
  split.
  - intros estado. unfold permitted, Migration.check_in,
      Migration.pedidos_estado_workflow_check_values, card_icon, ORDER_STATUSES.
    cbn [existsb lookup].
    case_key "pendiente" estado; [discriminate|].
    case_key "confirmado" estado; [discriminate|].
    case_key "en_proceso" estado; [discriminate|].
    case_key "enviado" estado; [intros _; split; [tauto|discriminate]|].
    case_key "entregado" estado;
      [intros _; split; [tauto|discriminate]|].
    case_key "cancelado" estado;
      [intros _; split; [tauto|discriminate]|].
    intros _. split; [congruence|]. intros [H|[H|H]]; congruence.
  - intros estado next. unfold getNextStatus, statusFlow. cbn [lookup].
    case_key "pendiente" estado;
      [intros H; inversion H; subst; split; [discriminate|];
       split; [discriminate|intros [E|E]; discriminate]|].
    case_key "confirmado" estado;
      [intros H; inversion H; subst; split; [discriminate|];
       split; [discriminate|intros [E|E]; discriminate]|].
    case_key "en_proceso" estado;
      [intros H; inversion H; subst; split; [discriminate|];
       split; [now left|reflexivity]|].
    case_key "enviado" estado;
      [intros H; inversion H; subst; split; [discriminate|];
       split; [now right|reflexivity]|].
    case_key "entregado" estado; [discriminate|].
    case_key "cancelado" estado; [discriminate|].
    discriminate.
Qed.

(** X8. The status flow of the timeline ends: from any status, four
    advances reach a status with no next one, and no advance ever gives
    'cancelado'. *)
Theorem timeline_flow_ends :
  forall estado : string,
    getNextStatus (advance 4 estado) = None
    /\ forall next, getNextStatus estado = Some next -> next <> "cancelado".
Proof.
  intros estado.
  case_key "pendiente" estado;
    [split; [reflexivity|]; intros n H; inversion H; discriminate|].
  case_key "confirmado" estado;
    [split; [reflexivity|]; intros n H; inversion H; discriminate|].
  case_key "en_proceso" estado;
    [split; [reflexivity|]; intros n H; inversion H; discriminate|].
  case_key "enviado" estado;
    [split; [reflexivity|]; intros n H; inversion H; discriminate|].
  case_key "entregado" estado;
    [split; [reflexivity|]; intros n H; discriminate|].
  case_key "cancelado" estado;
    [split; [reflexivity|]; intros n H; discriminate|].
  assert (Hnone : getNextStatus estado = None).
  { unfold getNextStatus, statusFlow. cbn [lookup].
    repeat match goal with
           | |- context [String.eqb ?k estado] =>
               destruct (String.eqb_spec k estado); [congruence|]
           end.
    reflexivity. }
  split; [|intros n H; congruence].
  cbn [advance]. now rewrite Hnone.
Qed.

End OrderViews.

(** ** [OrderTimeline]: the set of expanded orders *)

Module TimelineExpansion.

Import ReportGenerator.

(** [Set.prototype.has] and [delete] on the insertion-ordered elements. *)
Definition Set_has (x : string) (s : list string) : bool :=
  existsb (String.eqb x) s.

Definition Set_delete (x : string) (s : list string) : list string :=
  filter (fun y => negb (String.eqb x y)) s.

(** [toggleOrderExpansion]: a copy of the set, with [orderId] deleted
    when it is there and added when it is not. *)
Definition toggleOrderExpansion (orderId : string) (expandedOrders : list string)
    : list string :=
  let newExpanded := new_Set expandedOrders in
  if Set_has orderId newExpanded
  then Set_delete orderId newExpanded
  else Set_add orderId newExpanded.

Lemma Set_has_In (x : string) (s : list string) :
  Set_has x s = true <-> In x s.
Proof.
  unfold Set_has. rewrite existsb_exists. split.
  - intros [y [Hy Heq]]. apply String.eqb_eq in Heq. now subst.
  - intros H. exists x. split; [exact H|apply String.eqb_refl].
Qed.

Lemma new_Set_In (x : string) (s : list string) : In x (new_Set s) <-> In x s.
Proof.
  unfold new_Set. destruct (fold_Set_add s [] (NoDup_nil _)) as [_ H].
  rewrite H. simpl. tauto.
Qed.

Lemma toggle_In (orderId x : string) (expanded : list string) :
  In x (toggleOrderExpansion orderId expanded)
  <-> (x = orderId /\ ~ In orderId expanded)
      \/ (x <> orderId /\ In x expanded).
Proof.
  unfold toggleOrderExpansion.
  destruct (Set_has orderId (new_Set expanded)) eqn:E.
  - rewrite Set_has_In, new_Set_In in E.
    unfold Set_delete. rewrite filter_In, new_Set_In, negb_true_iff.
    destruct (String.eqb_spec orderId x) as [->|Hne].
    + split; [intros [_ H]; discriminate|].
      intros [[_ H]|[H _]]; [contradiction|congruence].
    + split; [intros [H _]; right; split; congruence|].
      intros [[H _]|[_ H]]; [congruence|now split].
  - assert (Hnot : ~ In orderId expanded).
    { intros H. rewrite <- new_Set_In, <- Set_has_In in H. congruence. }
    rewrite Set_add_In, new_Set_In.
    destruct (String.eqb_spec orderId x) as [->|Hne].
    + tauto.
    + split; [intros [H|H]; [right; split; congruence|congruence]|].
      intros [[H _]|[_ H]]; [congruence|now left].
Qed.

(** X9. Expanding and collapsing an order in the timeline: a toggle
    changes the membership of that order and of no other, the set stays
    free of duplicates, and two toggles of the same order give back a
    set with the members it had. *)
Theorem toggleOrderExpansion_flips :
  forall (orderId : string) (expandedOrders : list string),
    (forall x, In x (toggleOrderExpansion orderId expandedOrders)
               <-> (x = orderId /\ ~ In orderId expandedOrders)
                   \/ (x <> orderId /\ In x expandedOrders))
    /\ NoDup (toggleOrderExpansion orderId expandedOrders)
    /\ (forall x, In x (toggleOrderExpansion orderId
                          (toggleOrderExpansion orderId expandedOrders))
                  <-> In x expandedOrders).
Proof.
  intros orderId expanded. split; [|split].
  - intros x. apply toggle_In.
  - unfold toggleOrderExpansion.
    assert (Hnd : NoDup (new_Set expanded))
      by apply (fold_Set_add expanded [] (NoDup_nil _)).
    destruct (Set_has orderId (new_Set expanded)).
    + now apply NoDup_filter.
    + now apply Set_add_NoDup.
  - intros x. rewrite !toggle_In.
    destruct (in_dec string_dec orderId expanded) as [Hin|Hout];
      destruct (String.eqb_spec x orderId) as [->|Hne];
      intuition congruence.
Qed.

End TimelineExpansion.

(** ** [OperationalOrderManager]: the partial-confirmation dialog *)

Module OrderDialog.

Import ReportGenerator.

(** The fields of a loaded item the dialog reads. *)
Record OrderItem := mkOrderItem {
  id : string;
  estado : string;
  notas_item : option string
}.

(** A value of [selectedItems]; a field is [None] when the property is
    missing, which a spread of [undefined] can leave. *)
Record ItemSelection := mkSelection {
  confirmed : option bool;
  notes : option string
}.

(** [item.notas_item || '']. *)
Definition notes_or_empty (item : OrderItem) : string :=
  match notas_item item with
  | Some n => n
  | None => ""
  end.

(** [loadOrderItems] builds the selection: [selectedItems] is an object
    keyed by item id, listed in insertion order (ids are UUIDs, not
    array indices). *)
Definition initialSelection (data : list OrderItem)
    : list (string * ItemSelection) :=
  fold_left
    (fun sel item =>
       Map_set (id item)
         (mkSelection (Some (String.eqb (estado item) "confirmado"))
                      (Some (notes_or_empty item)))
         sel)
    data [].

(** The two handlers of a dialog row:
    [{ ...prev, [item.id]: { ...prev[item.id], confirmed: checked } }] and
    the same with [notes]. *)
Inductive DialogEvent :=
| Check (itemId : string) (checked : bool)
| TypeNotes (itemId : string) (value : string).

Definition event_item (e : DialogEvent) : string :=
  match e with
  | Check i _ => i
  | TypeNotes i _ => i
  end.

Definition onDialogEvent (prev : list (string * ItemSelection)) (e : DialogEvent)
    : list (string * ItemSelection) :=
  match e with
  | Check i checked =>
      Map_set i
        (mkSelection (Some checked)
           (match Map_get i prev with Some s => notes s | None => None end))
        prev
  | TypeNotes i value =>
      Map_set i
        (mkSelection
           (match Map_get i prev with Some s => confirmed s | None => None end)
           (Some value))
        prev
  end.

(** [itemsToConfirm] of [handleConfirmPartialOrder]; a missing
    [confirmed] is falsy for the hook. *)
Definition itemsToConfirm (selectedItems : list (string * ItemSelection))
    : list UseOrderOperations.SelectedItem :=
  map (fun entry =>
         UseOrderOperations.mkSelected (fst entry)
           (match confirmed (snd entry) with Some b => b | None => false end)
           (notes (snd entry)))
      selectedItems.

Definition sample_items : list OrderItem :=
  [mkOrderItem "i1" "confirmado" (Some "ok");
   mkOrderItem "i2" "enviado" None;
   mkOrderItem "i3" "sin_stock" None].

Lemma Map_set_fresh {V : Type} (k : string) (v : V) (m : list (string * V)) :
  ~ In k (map fst m) -> Map_set k v m = m ++ [(k, v)].
Proof.
  induction m as [|[k' v'] rest IH]; simpl; intros Hnot; [reflexivity|].
  destruct (String.eqb_spec k' k) as [->|Hne]; [tauto|].
  f_equal. apply IH. tauto.
Qed.

Lemma initialSelection_entries (data : list OrderItem) :
  NoDup (map id data) ->
  initialSelection data
  = map (fun item =>
           (id item,
            mkSelection (Some (String.eqb (estado item) "confirmado"))
                        (Some (notes_or_empty item))))
        data.
Proof.
  intros Hnd. unfold initialSelection.
  assert (H : forall acc,
             (forall item, In item data -> ~ In (id item) (map fst acc)) ->
             fold_left
               (fun sel item =>
                  Map_set (id item)
                    (mkSelection (Some (String.eqb (estado item) "confirmado"))
                                 (Some (notes_or_empty item)))
                    sel)
               data acc
             = acc ++ map (fun item =>
                             (id item,
                              mkSelection
                                (Some (String.eqb (estado item) "confirmado"))
                                (Some (notes_or_empty item))))
                          data).
  { induction data as [|item rest IH]; intros acc Hfresh; simpl.
    - now rewrite app_nil_r.
    - inversion Hnd as [|x xs Hnotin Hnd']; subst.
      rewrite Map_set_fresh by (apply Hfresh; now left).
      rewrite (IH Hnd'); [now rewrite <- app_assoc|].
      intros item' Hin. rewrite map_app, in_app_iff. simpl.
      intros [H|[H|[]]].
      + apply (Hfresh item'); [now right|exact H].
      + apply Hnotin. rewrite H. now apply in_map. }
  apply (H []). intros item _ [].
Qed.

Lemma onDialogEvent_keys (prev : list (string * ItemSelection)) (e : DialogEvent) :
  In (event_item e) (map fst prev) ->
  map fst (onDialogEvent prev e) = map fst prev.
Proof.
  intros Hin. apply Map_has_keys in Hin.
  destruct e as [i c|i v]; simpl in *; rewrite Map_set_keys; now rewrite Hin.
Qed.

(** X10. Confirming the dialog writes the status of every item of the
    order, touched or not.  For items loaded with distinct ids: the
    selection that the dialog sends has exactly one entry per item, in
    order, whatever boxes were ticked or notes typed on those items; and
    when nothing was touched, each item is sent as 'confirmado' if that
    was its status and as 'no_confirmado' otherwise, so that a status
    such as 'enviado' or 'sin_stock' is overwritten. *)
Theorem dialog_confirms_every_item :
  forall (now : string) (data : list OrderItem),
    NoDup (map id data) ->
    (forall events : list DialogEvent,
        Forall (fun e => In (event_item e) (map id data)) events ->
        map UseOrderOperations.itemId
            (itemsToConfirm (fold_left onDialogEvent events (initialSelection data)))
        = map id data)
    /\ map (UseOrderOperations.item_update now)
           (itemsToConfirm (initialSelection data))
       = map (fun item =>
                UseOrderOperations.Update "pedido_items"
                  [("estado",
                    UseOrderOperations.JString
                      (if String.eqb (estado item) "confirmado"
                       then "confirmado" else "no_confirmado"));
                   ("notas_item",
                    UseOrderOperations.JString (notes_or_empty item));
                   ("fecha_confirmacion",
                    if String.eqb (estado item) "confirmado"
                    then UseOrderOperations.JString now
                    else UseOrderOperations.JNull)]
                  (id item))
             data.
Proof.
  intros now data Hnd. split.
  - intros events Hev.
    assert (Hkeys : map fst (fold_left onDialogEvent events (initialSelection data))
                    = map id data).
    { assert (H : forall sel, map fst sel = map id data ->
                              map fst (fold_left onDialogEvent events sel)
                              = map id data).
      { induction Hev as [|e es He Hes IH]; intros sel Hsel; simpl; [exact Hsel|].
        apply IH. rewrite onDialogEvent_keys; [exact Hsel|].
        now rewrite Hsel. }
      apply H. rewrite (initialSelection_entries data Hnd), map_map.
      reflexivity. }
    unfold itemsToConfirm. rewrite map_map. simpl. exact Hkeys.
  - rewrite (initialSelection_entries data Hnd).
    unfold itemsToConfirm. rewrite !map_map. apply map_ext. intros item.
    unfold UseOrderOperations.item_update. simpl. reflexivity.
Qed.

Lemma sample_items_distinct : NoDup (map id sample_items).
Proof.
  simpl. repeat constructor; simpl; intuition discriminate.
Defined.

Lemma dialog_confirms_every_item_witness :
  map (fun r => match r with
                | UseOrderOperations.Update _ (( _, v) :: _) i => (i, v)
                | _ => ("", UseOrderOperations.JNull)
                end)
      (map (UseOrderOperations.item_update "2025-08-20T10:00:00Z")
           (itemsToConfirm (initialSelection sample_items)))
  = [("i1", UseOrderOperations.JString "confirmado");
     ("i2", UseOrderOperations.JString "no_confirmado");
     ("i3", UseOrderOperations.JString "no_confirmado")].
Proof.
  rewrite (proj2 (dialog_confirms_every_item "2025-08-20T10:00:00Z"
                    sample_items sample_items_distinct)).
  reflexivity.
Defined.

End OrderDialog.

(** ** [useOrderOperations]: what the user is told *)

Module OrderNotifications.

Import UseOrderOperations.

Section Notifications.

Variable Backend : Type.
Variable serve : Request -> Backend -> Response * Backend.
Variable now : string.
Variable toLocaleDateString : string -> string.

Abbreviation World := (World Backend).

(** The call that took [before] to [after] showed the one toast [t]:
    a plain one when it returned [true]; when it returned [false], a
    'destructive' one titled "Error" whose text is the message of an
    error that one of the requests of this call was answered with. *)
Definition told (result : Completion bool) (before after : World) (t : Toast)
    : Prop :=
  toasts _ after = toasts _ before ++ [t]
  /\ ((result = Return true /\ variant t = None)
      \/ (result = Return false
          /\ variant t = Some "destructive" /\ title t = "Error"
          /\ exists answers request response e,
               sent _ after = sent _ before ++ answers
               /\ In (request, response) answers
               /\ completion_of response = Throw e
               /\ description t = message e)).

Definition tells_once (op : World -> Completion bool * World) (w : World) : Prop :=
  exists t, told (fst (op w)) w (snd (op w)) t.

Lemma first_rejection_answer (answers : list (Request * Response)) (e : Error) :
  first_rejection (map (fun a => completion_of (snd a)) answers) = Some e ->
  exists request response,
    In (request, response) answers /\ completion_of response = Throw e.
Proof.
  induction answers as [|[r resp] rest IH]; simpl; [discriminate|].
  destruct (completion_of resp) as [u|e'] eqn:E.
  - intros H. destruct (IH H) as [q [p [Hin Hc]]].
    exists q, p. split; [now right|exact Hc].
  - intros H. inversion H; subst. exists r, resp. split; [now left|exact E].
Qed.

Lemma single_request_tells (op : World -> Completion bool * World)
    (r : Request) (ok : string * string) (w : World) :
  op = (bind _ (setLoading _ true) (fun _ =>
        try_catch_finally _
          (bind _ (await _ serve r) (fun x =>
           bind _ (throw_if _ (snd x)) (fun _ =>
           bind _ (toast _ (mkToast (fst ok) (snd ok) None)) (fun _ =>
           ret _ true))))
          (fun error =>
             bind _ (toast _ (error_toast "Error" error)) (fun _ => ret _ false))
          (setLoading _ false))) ->
  tells_once op w.
Proof.
  intros ->. unfold tells_once.
  pose proof (single_request_run Backend serve r
                (mkToast (fst ok) (snd ok) None) "Error"
                (fun _ => true) false w) as Hrun.
  cbv beta in Hrun. rewrite Hrun. clear Hrun. cbn [fst snd].
  exists (outcome_toast (mkToast (fst ok) (snd ok) None) "Error"
            (fst (serve r (backend _ w)))).
  split; [reflexivity|]. unfold outcome_toast.
  destruct (fst (serve r (backend _ w))) as [data [e|]|e] eqn:E; simpl.
  - right. repeat split. exists [(r, Resolved data (Some e))], r,
      (Resolved data (Some e)), e. simpl. tauto.
  - left. now split.
  - right. repeat split. exists [(r, Rejected e)], r, (Rejected e), e.
    simpl. tauto.
Qed.

(** X11. Every call of the four operations that return a boolean shows
    exactly one toast.  After [true] it is a plain one; after [false] it
    is a 'destructive' toast titled "Error" that carries the message of
    an error returned for one of the requests of that very call.  The
    stock check shows no toast when it succeeds and one 'destructive'
    toast when it fails. *)
Theorem every_call_tells_once :
  forall w : World,
    (forall pedidoId selectedItems operationalNotes,
        tells_once (confirmPartialOrder _ serve now pedidoId selectedItems
                      operationalNotes) w)
    /\ (forall itemId newStatus notes,
          tells_once (updateItemStatus _ serve now itemId newStatus notes) w)
    /\ (forall pedidoId deliveryDate,
          tells_once (scheduleDelivery _ serve toLocaleDateString pedidoId
                        deliveryDate) w)
    /\ (forall pedidoId newStatus notes,
          tells_once (updateOrderStatus _ serve pedidoId newStatus notes) w)
    /\ (forall productIds,
          let after := snd (checkStockAvailability _ serve productIds w) in
          let answer := fst (serve (stock_rpc productIds) (backend _ w)) in
          toasts _ after
          = toasts _ w
            ++ match completion_of answer with
               | Return _ => []
               | Throw e => [mkToast "Error verificando stock" (message e)
                                     (Some "destructive")]
               end).
Proof.
  intros w. split; [|split; [|split; [|split]]].
  - intros pedidoId selectedItems operationalNotes. unfold tells_once.
    rewrite (confirmPartialOrder_run Backend serve now).
    destruct (first_rejection
                (map (fun a => completion_of (snd a))
                     (fst (serve_all _ serve
                             (map (item_update now) selectedItems)
                             (backend _ w))))) as [e|] eqn:E.
    + exists (error_toast "Error" e). cbn [fst snd]. split; [reflexivity|].
      right. repeat split.
      destruct (first_rejection_answer _ _ E) as [q [p [Hin Hc]]].
      eexists. exists q, p, e. repeat split; [exact Hin|exact Hc].
    + cbn [fst snd].
      set (b1 := snd (serve_all _ serve (map (item_update now) selectedItems)
                        (backend _ w))).
      set (oreq := order_notes_update pedidoId selectedItems operationalNotes).
      eexists. split; [reflexivity|]. unfold outcome_toast.
      destruct (fst (serve oreq b1)) as [data [e|]|e] eqn:Eo; simpl.
      * right. repeat split. eexists. exists oreq, (Resolved data (Some e)), e.
        rewrite <- app_assoc. split; [reflexivity|].
        split; [|now split]. apply in_or_app. right. now left.
      * left. now split.
      * right. repeat split. eexists. exists oreq, (Rejected e), e.
        rewrite <- app_assoc. split; [reflexivity|].
        split; [|now split]. apply in_or_app. right. now left.
  - intros itemId newStatus notes.
    apply (single_request_tells _ (item_status_update now itemId newStatus notes)
             ("Estado actualizado", ("Item marcado como " ++ newStatus)%string)).
    reflexivity.
  - intros pedidoId deliveryDate.
    apply (single_request_tells _ (delivery_update pedidoId deliveryDate)
             ("Entrega programada",
              ("Pedido programado para " ++ toLocaleDateString deliveryDate)%string)).
    reflexivity.
  - intros pedidoId newStatus notes.
    apply (single_request_tells _ (order_status_update pedidoId newStatus notes)
             ("Estado actualizado", ("Pedido marcado como " ++ newStatus)%string)).
    reflexivity.
  - intros productIds. cbv zeta.
    unfold checkStockAvailability.
    generalize (stock_rpc productIds). intros r.
    unfold bind, try_catch_finally, setLoading, await, toast, ret, throw_if,
      throw; simpl.
    destruct (serve r (backend _ w)) as [resp b'].
    destruct resp as [data [e|]|e]; simpl; try reflexivity.
    now rewrite app_nil_r.
Qed.

End Notifications.

End OrderNotifications.

(** ** [processReportData]: client sales, and how the groups add up *)

Module ReportTotals.

Import JS.

(** *** Sorting in decreasing order of a numeric field *)

Section SortByKey.
Context {A : Type}.
Variable key : A -> Q.






End SortByKey.

(** *** Sums over the values of a map *)

Lemma sum_Q_app (l1 l2 : list Q) :
  ReportGenerator.sum_Q (l1 ++ l2)
  == ReportGenerator.sum_Q l1 + ReportGenerator.sum_Q l2.
Proof.
  induction l1 as [|x l1 IH]; simpl; [ring|]. rewrite IH. ring.
Qed.



Section MapSum.
Context {V : Type}.
Variable mu : V -> Q.




End MapSum.

(** *** Client sales *)

Record cliente := mkCliente { nombre : string }.

(** A fetched order with its joined client; the other fields are those
    of the report's order. *)
Record fetched_order := mkFetched {
  fields : ReportGenerator.order;
  clientes : option cliente
}.

Record ClientStats := mkClientStats {
  stats_totalSales : Q;
  stats_orderCount : Z
}.


(** [order.clientes?.nombre || 'Cliente desconocido']. *)
Definition clientName_of (o : fetched_order) : string :=
  match clientes o with
  | Some c => if String.eqb (nombre c) "" then "Cliente desconocido" else nombre c
  | None => "Cliente desconocido"
  end.

(** The body of the [forEach] over the orders. *)
Definition add_order (clientStats : list (string * ClientStats))
    (o : fetched_order) : list (string * ClientStats) :=
  let clientStats :=
    if negb (ReportGenerator.Map_has (clientName_of o) clientStats)
    then ReportGenerator.Map_set (clientName_of o) (mkClientStats 0 0) clientStats
    else clientStats in
  match ReportGenerator.Map_get (clientName_of o) clientStats with
  | Some current =>
      ReportGenerator.Map_set (clientName_of o)
        (mkClientStats
           (stats_totalSales current
            + ReportGenerator.parseFloat (ReportGenerator.total (fields o)))
           (stats_orderCount current + 1))
        clientStats
  | None => clientStats
  end.

Definition clientStats (orders : list fetched_order) : list (string * ClientStats) :=
  fold_left add_order orders [].








(** *** Top products *)








End ReportTotals.

(** ** [BusinessTools]: the total of a quote *)

Module QuoteTotals.

Import BusinessTools.










End QuoteTotals.

(** ** [loadDashboardData]: what the statistics say about the fetched orders *)

Module DashboardTotals.

Import JS.
Import BusinessDashboard.



Lemma insert_desc_perm (p : pedido) (l : list pedido) :
  Permutation (p :: l) (insert_desc p l).
Proof.
  induction l as [|q rest IH]; simpl; [reflexivity|].
  destruct (created_at p <? created_at q)%Z; [|reflexivity].
  rewrite perm_swap. now constructor.
Qed.

Lemma order_created_at_desc_perm (l : list pedido) :
  Permutation l (order_created_at_desc l).
Proof.
  induction l as [|p rest IH]; simpl; [constructor|].
  rewrite <- insert_desc_perm. now constructor.
Qed.

Lemma sum_totals_perm (l1 l2 : list pedido) :
  Permutation l1 l2 ->
  fold_right (fun p acc => total p + acc) 0 l1
  == fold_right (fun p acc => total p + acc) 0 l2.
Proof.
  induction 1 as [|x l l' _ IH|x y l|l l' l'' _ IH1 _ IH2]; simpl.
  - reflexivity.
  - now rewrite IH.
  - ring.
  - now rewrite IH1.
Qed.

(** X16. As long as the user's clients have at most ten orders, the
    query's limit cuts nothing: the orders fetched are all of them and
    the total-sales figure is the sum of all their totals. *)
Theorem ventasTotal_complete_up_to_ten :
  forall (now : Date) (user_id : string) (table : list pedido),
    (List.length (orders_of_user user_id table) <= 10)%nat ->
    Permutation (orders_of_user user_id table) (select_pedidos user_id table)
    /\ ventasTotal (loadDashboardData now user_id table)
       == total_sales user_id table.
Proof.
  intros now user_id table Hle.
  assert (Hperm : Permutation (orders_of_user user_id table)
                              (select_pedidos user_id table)).
  { unfold select_pedidos. fold (orders_of_user user_id table).
    rewrite firstn_all2.
    - apply order_created_at_desc_perm.
    - now rewrite <- (Permutation_length
                        (order_created_at_desc_perm (orders_of_user user_id table))). }
  split; [exact Hperm|].
  unfold loadDashboardData. rewrite ventasTotal_of_fetched.
  unfold total_sales. symmetry. now apply sum_totals_perm.
Qed.

Lemma ventasTotal_complete_up_to_ten_witness :
  ventasTotal (loadDashboardData noon_aug_20 "u1" (firstn 4 eleven_orders))
  == total_sales "u1" (firstn 4 eleven_orders).
Proof.
  apply (ventasTotal_complete_up_to_ten noon_aug_20 "u1" (firstn 4 eleven_orders)).
  vm_compute. repeat constructor.
Defined.

(** *** The most active client *)










End DashboardTotals.

(** ** Runs of item updates *)

Module WorkflowRuns.

Import Migration.

(** One status update of one item, as the hook issues them: the item's
    id, the status written and the time of the statement. *)
Record step := mkStep {
  step_item : uuid;
  step_estado : option string;
  step_time : timestamptz
}.

Definition run_step (db : database) (s : step) : database :=
  update_item_estado (step_time s) (step_item s) (step_estado s) db.

Definition run (steps : list step) (db : database) : database :=
  fold_left run_step steps db.

Definition all_confirmado (oid : uuid) (db : database) : bool :=
  every_item_confirmado (items_of (Some oid) (pedido_items db)).

Definition three_steps : list step :=
  [mkStep "a" (Some "confirmado") 1%Z; mkStep "c" (Some "no_confirmado") 2%Z;
   mkStep "b" (Some "confirmado") 3%Z].

Lemma is_distinct_from_false (a b : option string) :
  is_distinct_from a b = false -> a = b.
Proof.
  unfold is_distinct_from. destruct a as [x|], b as [y|]; try discriminate;
    [|reflexivity].
  intros H. apply negb_false_iff, String.eqb_eq in H. now subst.
Qed.

(** A statement that does not fire the trigger for the order [oid]
    leaves the items of that order as they were. *)
Lemma quiet_step_keeps_items (oid : uuid) (o : Pedidos.row) (s : step)
    (db : database) :
  Pedidos.id o = oid ->
  existsb (fires_for o)
          (updated_rows (fun r => String.eqb (PedidoItems.id r) (step_item s))
                        (set_estado (step_estado s)) db) = false ->
  items_of (Some oid) (pedido_items (run_step db s))
  = items_of (Some oid) (pedido_items db).
Proof.
  intros Hid Hquiet. unfold run_step, update_item_estado.
  destruct (update_pedido_items_spec (step_time s)
              (fun r => String.eqb (PedidoItems.id r) (step_item s))
              (set_estado (step_estado s)) db) as [Hitems _].
  rewrite Hitems. clear Hitems. unfold updated_rows in Hquiet. unfold items_of.
  induction (pedido_items db) as [|r rest IH]; [reflexivity|].
  simpl in Hquiet. cbn [map filter].
  destruct (String.eqb (PedidoItems.id r) (step_item s)) eqn:Ec.
  - simpl in Hquiet. apply orb_false_iff in Hquiet.
    destruct Hquiet as [Hr Hrest]. cbn [set_estado PedidoItems.pedido_id].
    destruct (sql_eq (PedidoItems.pedido_id r) (Some oid)) eqn:Ep.
    + unfold fires_for in Hr. cbn [fst snd set_estado PedidoItems.estado
        PedidoItems.pedido_id] in Hr.
      assert (Hparent : sql_eq (Some (Pedidos.id o)) (PedidoItems.pedido_id r)
                        = true).
      { rewrite Hid. destruct (PedidoItems.pedido_id r) as [x|];
          [|discriminate Ep].
        unfold sql_eq in *. now rewrite String.eqb_sym. }
      rewrite Hparent, andb_true_r in Hr.
      apply is_distinct_from_false in Hr.
      rewrite (IH Hrest). f_equal. destruct r as [i p e]. simpl in *.
      now subst.
    + now apply IH.
  - destruct (sql_eq (PedidoItems.pedido_id r) (Some oid));
      [f_equal|]; now apply IH.
Qed.

Lemma run_snoc (steps : list step) (s : step) (db : database) :
  run (steps ++ [s]) db = run_step (run steps db) s.
Proof.
  unfold run. now rewrite fold_left_app.
Qed.

(** X18. Item updates alone bring an order to 'preparacion': after any
    run of single-item status updates, an order all of whose items are
    now 'confirmado', and were not all so before the run, has status
    'preparacion', whatever status it had and whatever else the run
    wrote. *)
Theorem confirmed_items_put_order_in_preparacion :
  forall (steps : list step) (db : database) (oid : uuid),
    all_confirmado oid db = false ->
    all_confirmado oid (run steps db) = true ->
    forall o, In o (pedidos (run steps db)) -> Pedidos.id o = oid ->
              Pedidos.estado o = Some "preparacion".
Proof.
  intros steps db oid Hbefore.
  induction steps as [|s steps IH] using rev_ind; intros Hafter o Hin Hid.
  - unfold run in Hafter. simpl in Hafter. congruence.
  - rewrite run_snoc in Hafter, Hin.
    set (d := run steps db) in *.
    unfold run_step, update_item_estado in Hin.
    destruct (update_pedido_items_spec (step_time s)
                (fun r => String.eqb (PedidoItems.id r) (step_item s))
                (set_estado (step_estado s)) d) as [Hitems Hpedidos].
    rewrite Hpedidos in Hin. apply in_map_iff in Hin.
    destruct Hin as [o0 [Ho Hin0]].
    destruct (existsb (fires_for o0)
                (updated_rows (fun r => String.eqb (PedidoItems.id r) (step_item s))
                              (set_estado (step_estado s)) d)) eqn:Ef.
    + subst o. unfold recompute_order, recomputed_estado. simpl in *.
      unfold all_confirmado, run_step, update_item_estado in Hafter.
      rewrite Hitems in Hafter. rewrite Hid. now rewrite Hafter.
    + subst o0. apply IH; [|exact Hin0|exact Hid].
      unfold all_confirmado in *.
      now rewrite <- (quiet_step_keeps_items oid o s d Hid Ef).
Qed.

Lemma confirmed_items_put_order_in_preparacion_witness :
  all_confirmado "p1" sample_db = false
  /\ all_confirmado "p1" (run three_steps sample_db) = true
  /\ In (Pedidos.mk "p1" (Some "preparacion") 1%Z)
        (pedidos (run three_steps sample_db))
  /\ Pedidos.estado (Pedidos.mk "p1" (Some "preparacion") 1%Z)
     = Some "preparacion".
Proof.
  split; [reflexivity|]. split; [reflexivity|].
  split; [now left|].
  exact (confirmed_items_put_order_in_preparacion three_steps sample_db "p1"
           eq_refl eq_refl (Pedidos.mk "p1" (Some "preparacion") 1%Z)
           (or_introl eq_refl) eq_refl).
Defined.

Example three_steps_run :
  pedidos (run three_steps sample_db)
  = [Pedidos.mk "p1" (Some "preparacion") 1%Z;
     Pedidos.mk "p2" (Some "confirmado_parcial") 2%Z].
Proof. reflexivity. Qed.

End WorkflowRuns.
